(** * MiotDevice: the property registry, writes and polling of homebridge-miot

    A shallow embedding of [lib/protocol/MiotDevice.js].  The device object,
    the property objects it refers to and the effects it has on the outside
    world (log lines, transport calls, emitted events) are explicit state;
    every method is a state transformer in a small state-and-exception monad.

    Conventions of the embedding.
    - JavaScript values are the tagged union [Value]; numbers are integers
      ([Z]), so fractional numbers and NaN are outside the model.
    - The objects [this.properties] and [this.capabilities] are used as
      dictionaries.  They are association lists in key insertion order, the
      order [Object.keys] enumerates string keys in; keys that look like
      array indices or that name members of [Object.prototype] are outside
      the model.
    - Property objects are shared and mutated in place, so they live in a
      store and are passed around as references.
    - A promise is represented by its outcome.  A transport call is answered
      at once by the transport handle, and the handlers chained on it run
      right away: a method runs to completion before the next one starts. *)

From Stdlib Require Import ZArith Lia.
From stdpp Require Import base option list strings.

(** ** JavaScript values *)

Module Js.

Inductive Value : Type :=
| VUndefined
| VNull
| VBool (b : bool)
| VNum (n : Z)
| VStr (s : string).

(** [a === b] *)
Definition strict_eq (a b : Value) : bool :=
  match a, b with
  | VUndefined, VUndefined => true
  | VNull, VNull => true
  | VBool x, VBool y => Bool.eqb x y
  | VNum x, VNum y => Z.eqb x y
  | VStr x, VStr y => String.eqb x y
  | _, _ => false
  end.

(** [!!a] *)
Definition truthy (a : Value) : bool :=
  match a with
  | VUndefined | VNull => false
  | VBool b => b
  | VNum n => negb (Z.eqb n 0)
  | VStr s => negb (String.eqb s "")
  end.

(** The conversion of a string to a number is the runtime's; it is left
    abstract.  [None] stands for NaN. *)
Class Runtime := { StringToNumber : string -> option Z }.

(** [ToNumber]; [None] stands for NaN. *)
Definition to_number `{Runtime} (a : Value) : option Z :=
  match a with
  | VUndefined => None
  | VNull => Some 0%Z
  | VBool b => Some (if b then 1%Z else 0%Z)
  | VNum n => Some n
  | VStr s => StringToNumber s
  end.

(** [a < b]: two strings compare as strings, anything else as numbers, and
    a comparison with NaN is false. *)
Definition lt `{Runtime} (a b : Value) : bool :=
  match a, b with
  | VStr x, VStr y => String.ltb x y
  | _, _ =>
      match to_number a, to_number b with
      | Some x, Some y => Z.ltb x y
      | _, _ => false
      end
  end.

(** [a > b] *)
Definition gt `{Runtime} (a b : Value) : bool := lt b a.

(** A runtime in which no string denotes a number. *)
Definition no_numeric_strings : Runtime := {| StringToNumber := fun _ => None |}.

End Js.

(** ** Property objects *)

Module MiotProperty.
Import Js.

(** Modelled from the spec: [lib/protocol/MiotProperty.js] is not among the
    sources.  The semantic type of a property (bool, int, float, enum or
    string). *)
Inductive Format : Type :=
| FormatBool | FormatInt | FormatFloat | FormatEnum | FormatString.

(** Modelled from the spec: the access of a property, which is readable,
    writable or both ([MiotProperty.js] is missing). *)
Inductive Access : Type := ReadOnly | WriteOnly | ReadWrite.

(** Modelled from the spec: an enumerated allowed value with its
    description ([MiotProperty.js] is missing). *)
Record ValueListEntry : Type := mkEntry { entry_value : Z; description : string }.

(** Modelled from the spec: the fields of a property object
    ([MiotProperty.js] is missing); [value] is the cached value. *)
Record t : Type := mkProperty {
  name : string;
  siid : Z;
  piid : Z;
  format : Format;
  access : Access;
  unit : option string;
  valueRange : option (list Z);
  valueList : option (list ValueListEntry);
  value : Value
}.

(** Modelled from the spec: the cached value defaults to a zero value of the
    declared type ([MiotProperty.js] is missing). *)
Definition zero_value (f : Format) : Value :=
  match f with
  | FormatBool => VBool false
  | FormatInt | FormatFloat | FormatEnum => VNum 0
  | FormatString => VStr ""
  end.

(** Modelled from the spec: the constructor of [MiotProperty], which is
    missing from the sources. *)
Definition new (name : string) (siid piid : Z) (format : Format) (access : Access)
    (unit : option string) (valueRange : option (list Z))
    (valueList : option (list ValueListEntry)) : t :=
  mkProperty name siid piid format access unit valueRange valueList (zero_value format).

(** Modelled from the spec: [getName()] of the missing [MiotProperty.js]. *)
Definition getName (p : t) : string := name p.

(** Modelled from the spec: [isReadable()] is derived from the access
    ([MiotProperty.js] is missing). *)
Definition isReadable (p : t) : bool :=
  match access p with ReadOnly | ReadWrite => true | WriteOnly => false end.

(** Modelled from the spec: [isWritable()] is derived from the access
    ([MiotProperty.js] is missing). *)
Definition isWritable (p : t) : bool :=
  match access p with WriteOnly | ReadWrite => true | ReadOnly => false end.

(** Modelled from the spec: [getValue()] returns the cached value
    ([MiotProperty.js] is missing). *)
Definition getValue (p : t) : Value := value p.

(** Modelled from the spec: [getSafeValue()] returns the cached value, or 0
    when it is undefined ([MiotProperty.js] is missing). *)
Definition getSafeValue (p : t) : Value :=
  match value p with VUndefined => VNum 0 | v => v end.

(** Modelled from the spec: [setValue(v)] overwrites the cached value
    unconditionally ([MiotProperty.js] is missing). *)
Definition setValue (p : t) (v : Value) : t :=
  mkProperty (name p) (siid p) (piid p) (format p) (access p) (unit p)
             (valueRange p) (valueList p) v.

(** Modelled from the spec: [getValueRange()] of the missing
    [MiotProperty.js]; [None] is an absent range. *)
Definition getValueRange (p : t) : option (list Z) := valueRange p.

(** Modelled from the spec: [hasValueRange()] of the missing
    [MiotProperty.js]: a range is declared and is not empty. *)
Definition hasValueRange (p : t) : bool :=
  match valueRange p with Some (_ :: _) => true | _ => false end.

(** Modelled from the spec: [getValueList()] of the missing
    [MiotProperty.js]; [None] is an absent list. *)
Definition getValueList (p : t) : option (list ValueListEntry) := valueList p.

(** Modelled from the spec: [hasValueList()] of the missing
    [MiotProperty.js]: a list is declared and is not empty. *)
Definition hasValueList (p : t) : bool :=
  match valueList p with Some (_ :: _) => true | _ => false end.

(** Modelled from the spec: an item [{did, siid, piid[, value]}] of a get or
    set request ([MiotProperty.js] is missing). *)
Record ProtocolObj : Type := mkProtocolObj {
  did : Value;
  req_siid : Z;
  req_piid : Z;
  req_value : option Value
}.

(** Modelled from the spec: [getReadProtocolObjForDid(did)] builds a read
    request addressed by device id, service id and property id
    ([MiotProperty.js] is missing). *)
Definition getReadProtocolObjForDid (p : t) (deviceId : Value) : ProtocolObj :=
  mkProtocolObj deviceId (siid p) (piid p) None.

(** Modelled from the spec: [getWriteProtocolObjForDid(did, value)] builds a
    write request addressed the same way and carrying [value]
    ([MiotProperty.js] is missing). *)
Definition getWriteProtocolObjForDid (p : t) (deviceId : Value) (v : Value) : ProtocolObj :=
  mkProtocolObj deviceId (siid p) (piid p) (Some v).

(** Modelled from the spec: an element [{name, value}] of the snapshot of
    the cache ([MiotProperty.js] is missing). *)
Record NameVal : Type := mkNameVal { nv_name : string; nv_value : Value }.

(** Modelled from the spec: [getNameValObj()] pairs the name of the
    property with its cached value ([MiotProperty.js] is missing). *)
Definition getNameValObj (p : t) : NameVal := mkNameVal (name p) (value p).

End MiotProperty.

(** ** The device *)

Module MiotDevice.
Import Js.

(** A reference to a property object in the store. *)
Definition Ref : Type := nat.

Inductive Command : Type := COMMAND_GET | COMMAND_SET | COMMAND_ACTION.

(** An element [{code, value?}] of a response; an absent field is
    [VUndefined]. *)
Record Slot : Type := mkSlot { code : Value; slot_value : Value }.

(** The messages of the [Error] objects the device creates. *)
Inductive ErrorMsg : Type :=
| DeviceNotConnected
| CouldNotFindDeviceId (name : Value)
| CannotSetNotConnected (prop : string) (v : Value)
| MissingPropertyCannotSet
| CannotPollNotConnected.

(** Thrown values and rejection reasons. *)
Inductive JsError : Type :=
| Error (m : ErrorMsg)
| TypeError
| TransportError (reason : string).

(** The outcome of a promise. *)
Inductive Outcome (A : Type) : Type :=
| Fulfilled (a : A)
| Rejected (e : JsError).
Arguments Fulfilled {A} a.
Arguments Rejected {A} e.

(** A transport call: the command and its parameter array. *)
Definition Call : Type := Command * list MiotProperty.ProtocolObj.

(** The handle of the transport library.  [call] answers a call from the
    calls made before it. *)
Record MiioDevice : Type := mkMiio {
  id : string;
  miioModel : string;
  management_info : Outcome (list (string * Value));
  call : list Call -> Call -> Outcome (list Slot)
}.

Inductive Level : Type := info | debug | deepDebug | warn | error.

(** The log lines, by the place that writes them; the text interpolated
    into a line is kept where it is a name or a value. *)
Inductive Msg : Type :=
| MissingModel
| InitializingProperties
| DevicePropertiesDump
| InitializingCapabilities
| DeviceCapabilitiesDump
| SettingUpDevice
| FetchingDeviceInfo
| GotDeviceInfo
| CouldNotRetrieveDeviceInfo
| GotDidFromDevice (did : Value)
| DoingDeviceSpecificSetup
| SetupFinished
| Reconnected
| DoingInitialFetch
| GotInitialProperties
| ErrorOnInitialRequest (e : JsError)
| TotalUseTime (minutes : Value)
| MissingName
| MissingSiidOrPiid (name : string)
| PropertyNotFound (name : string)
| AdjustingToMax (prop : string) (v : Value) (high : Z)
| AdjustingToMin (prop : string) (v : Value) (low : Z)
| SetNotNeeded (prop : string) (v : Value)
| ErrorParsingResponse (propName : string) (returnObj : Slot)
| SetRequest (prop : string) (propDef : MiotProperty.ProtocolObj)
| SetSucceeded (prop : string) (v : Value) (result : list Slot)
| SetFailed (prop : string) (v : Value) (e : JsError)
| ErrorObject (e : JsError).

Inductive Event : Type := DEVICE_PROPERTY_UPDATED.

(** What the device does to the outside world. *)
Inductive Effect : Type :=
| ELog (l : Level) (m : Msg)
| ECall (c : Command) (params : list MiotProperty.ProtocolObj)
| EInfo
| EDestroy (handle : string)
| EEmit (ev : Event) (prop : Ref).

(** The device object, the store of the property objects and the trace of
    the effects so far (oldest first). *)
Record Device : Type := mkDevice {
  deviceId : Value;
  model : Value;
  name : Value;
  miioDevice : option MiioDevice;
  deviceInfo : option (list (string * Value));
  capabilities : list (string * Value);
  properties : list (string * Ref);
  store : list MiotProperty.t;
  trace : list Effect
}.

Definition set_deviceId (v : Value) (d : Device) : Device :=
  mkDevice v (model d) (name d) (miioDevice d) (deviceInfo d) (capabilities d)
           (properties d) (store d) (trace d).
Definition set_miioDevice (m : option MiioDevice) (d : Device) : Device :=
  mkDevice (deviceId d) (model d) (name d) m (deviceInfo d) (capabilities d)
           (properties d) (store d) (trace d).
Definition set_deviceInfo (i : option (list (string * Value))) (d : Device) : Device :=
  mkDevice (deviceId d) (model d) (name d) (miioDevice d) i (capabilities d)
           (properties d) (store d) (trace d).
Definition set_capabilities (c : list (string * Value)) (d : Device) : Device :=
  mkDevice (deviceId d) (model d) (name d) (miioDevice d) (deviceInfo d) c
           (properties d) (store d) (trace d).
Definition set_properties (p : list (string * Ref)) (d : Device) : Device :=
  mkDevice (deviceId d) (model d) (name d) (miioDevice d) (deviceInfo d) (capabilities d)
           p (store d) (trace d).
Definition set_store (s : list MiotProperty.t) (d : Device) : Device :=
  mkDevice (deviceId d) (model d) (name d) (miioDevice d) (deviceInfo d) (capabilities d)
           (properties d) s (trace d).
Definition set_trace (t : list Effect) (d : Device) : Device :=
  mkDevice (deviceId d) (model d) (name d) (miioDevice d) (deviceInfo d) (capabilities d)
           (properties d) (store d) t.

(** *** Objects used as dictionaries *)

(** [obj[key]]; [None] is undefined. *)
Fixpoint obj_get {A : Type} (obj : list (string * A)) (key : string) : option A :=
  match obj with
  | [] => None
  | (k, a) :: rest => if String.eqb k key then Some a else obj_get rest key
  end.

(** [obj[key] = a]: an existing key keeps its place, a new one goes last. *)
Fixpoint obj_set {A : Type} (obj : list (string * A)) (key : string) (a : A)
    : list (string * A) :=
  match obj with
  | [] => [(key, a)]
  | (k, b) :: rest =>
      if String.eqb k key then (k, a) :: rest else (k, b) :: obj_set rest key a
  end.

(** [Object.keys(obj)] *)
Definition obj_keys {A : Type} (obj : list (string * A)) : list string := map fst obj.

(** The key a possibly undefined name selects: [obj[undefined]] is
    [obj["undefined"]]. *)
Definition to_key (name : option string) : string :=
  match name with Some s => s | None => "undefined" end.

(** *** The monad of the methods *)

Inductive Completion (A : Type) : Type :=
| Normal (a : A)
| Throw (e : JsError).
Arguments Normal {A} a.
Arguments Throw {A} e.

Definition JS (A : Type) : Type := Device -> Completion A * Device.

Definition ret {A : Type} (a : A) : JS A := fun d => (Normal a, d).

Definition bind {A B : Type} (m : JS A) (k : A -> JS B) : JS B :=
  fun d => match m d with
           | (Normal a, d') => k a d'
           | (Throw e, d') => (Throw e, d')
           end.

Declare Scope js_scope.
Delimit Scope js_scope with js.
Notation "'let!' x := m 'in' k" := (bind m (fun x => k))
  (at level 10, x name, m at level 100, k at level 200, only parsing) : js_scope.
Notation "m ;; k" := (bind m (fun _ => k))
  (at level 100, k at level 200, right associativity, only parsing) : js_scope.
Open Scope js_scope.

Definition throw {A : Type} (e : JsError) : JS A := fun d => (Throw e, d).

Definition this : JS Device := fun d => (Normal d, d).

Definition modify (f : Device -> Device) : JS unit := fun d => (Normal tt, f d).

(** [try { m } catch (e) { h e }] *)
Definition try_catch {A : Type} (m : JS A) (h : JsError -> JS A) : JS A :=
  fun d => match m d with
           | (Normal a, d') => (Normal a, d')
           | (Throw e, d') => h e d'
           end.

Definition effect (e : Effect) : JS unit :=
  modify (fun d => set_trace (trace d ++ [e]) d).

Definition log (l : Level) (m : Msg) : JS unit := effect (ELog l m).

(** [this.emit(ev, prop)]; no listener is modelled. *)
Definition emit (ev : Event) (prop : Ref) : JS unit := effect (EEmit ev prop).

(** [p.then(h)] *)
Definition promise_then {A B : Type} (p : Outcome A) (h : A -> JS B) : JS (Outcome B) :=
  match p with
  | Fulfilled a =>
      fun d => match h a d with
               | (Normal b, d') => (Normal (Fulfilled b), d')
               | (Throw e, d') => (Normal (Rejected e), d')
               end
  | Rejected e => ret (Rejected e)
  end.

(** [p.catch(h)] *)
Definition promise_catch {A : Type} (p : Outcome A) (h : JsError -> JS A) : JS (Outcome A) :=
  match p with
  | Fulfilled a => ret (Fulfilled a)
  | Rejected e =>
      fun d => match h e d with
               | (Normal a, d') => (Normal (Fulfilled a), d')
               | (Throw e', d') => (Normal (Rejected e'), d')
               end
  end.

(** The body of an [async] method: what it throws rejects its promise. *)
Definition async {A : Type} (body : JS (Outcome A)) : JS (Outcome A) :=
  fun d => match body d with
           | (Normal p, d') => (Normal p, d')
           | (Throw e, d') => (Normal (Rejected e), d')
           end.

(** What a method's promise resolves to: nothing, or the object of the
    values read. *)
Inductive Returned : Type :=
| RUndefined
| RObject (obj : list (string * Value)).

(** The transport calls in a trace. *)
Definition calls_of (t : list Effect) : list Call :=
  omap (fun e => match e with ECall c ps => Some (c, ps) | _ => None end) t.

(** [this.miioDevice.call(c, params)] *)
Definition miio_call (c : Command) (params : list MiotProperty.ProtocolObj)
    : JS (Outcome (list Slot)) :=
  let! d := this in
  match miioDevice d with
  | None => throw TypeError
  | Some h =>
      effect (ECall c params) ;;
      ret (call h (calls_of (trace d)) (c, params))
  end.

(** The property object behind a reference. *)
Definition deref (r : Ref) : JS MiotProperty.t :=
  let! d := this in
  match store d !! r with
  | Some p => ret p
  | None => throw TypeError
  end.

(** [prop.setValue(v)] on the object behind [r] *)
Definition setValue (r : Ref) (v : Value) : JS unit :=
  let! p := deref r in
  modify (fun d => set_store (<[r := MiotProperty.setValue p v]> (store d)) d).

(** *** Methods the device classes define

    [supportsUseTimeReporting] and [getUseTime] are defined by the device
    classes that extend [MiotDevice]; those are not among the sources, so
    the two methods are parameters.  The hooks with an empty body in
    [MiotDevice] itself ([initDeviceProperties], [initDeviceCapabilities],
    [deviceSpecificSetup], [initialPropertyFetchDone]) are modelled as they
    stand there. *)
Class DeviceClass := {
  supportsUseTimeReporting : Device -> bool;
  getUseTime : Device -> Value
}.

(** A device class without use time reporting. *)
Definition plain_device : DeviceClass :=
  {| supportsUseTimeReporting := fun _ => false; getUseTime := fun _ => VUndefined |}.

Definition initDeviceProperties : JS unit := ret tt.
Definition initDeviceCapabilities : JS unit := ret tt.
Definition deviceSpecificSetup : JS unit := ret tt.
Definition initialPropertyFetchDone : JS unit := ret tt.

(** *** INFO *)

Definition isConnected (d : Device) : bool :=
  match miioDevice d with Some _ => true | None => false end.

(** [s.replace(/^miio:/, '')] *)
Definition strip_miio (s : string) : string :=
  if String.prefix "miio:" s
  then String.substring 5 (String.length s - 5) s
  else s.

Definition getDeviceId (d : Device) : Value :=
  match miioDevice d with
  | Some h => VStr (strip_miio (id h))
  | None => deviceId d
  end.

Definition getModel (d : Device) : Value :=
  match miioDevice d with
  | Some h => VStr (miioModel h)
  | None => model d
  end.

Definition getAllCapabilities (d : Device) : list (string * Value) := capabilities d.

(** *** METADATA *)

Definition addCapability (name : string) (v : Value) : JS unit :=
  modify (fun d => set_capabilities (obj_set (capabilities d) name v) d).

(** [addProperty(name, siid, piid, format, access, unit, valueRange,
    valueList)].  A missing argument is [None]; an empty name and a zero id
    are falsy as well.  The result is the new property, or undefined. *)
Definition addProperty (name : option string) (siid piid : option Z)
    (format : MiotProperty.Format) (access : MiotProperty.Access)
    (unit : option string) (valueRange : option (list Z))
    (valueList : option (list MiotProperty.ValueListEntry)) : JS (option Ref) :=
  match name with
  | Some name' =>
      if String.eqb name' "" then log warn MissingName ;; ret None
      else
        match siid, piid with
        | Some siid', Some piid' =>
            if Z.eqb siid' 0 || Z.eqb piid' 0
            then log warn (MissingSiidOrPiid name') ;; ret None
            else
              let newProp :=
                MiotProperty.new name' siid' piid' format access unit valueRange valueList in
              let! d := this in
              let r := length (store d) in
              modify (set_store (store d ++ [newProp])) ;;
              modify (fun d' => set_properties (obj_set (properties d') name' r) d') ;;
              ret (Some r)
        | _, _ => log warn (MissingSiidOrPiid name') ;; ret None
        end
  | None => log warn MissingName ;; ret None
  end.

Definition hasProperty (d : Device) (propName : string) : bool :=
  match obj_get (properties d) propName with Some _ => true | None => false end.

(** *** PROPERTY HELPERS *)

(** The result is the property, or null. *)
Definition getProperty (propName : string) : JS (option Ref) :=
  let! d := this in
  match obj_get (properties d) propName with
  | Some prop => ret (Some prop)
  | None => log warn (PropertyNotFound propName) ;; ret None
  end.

Definition getPropertyValue (propName : string) : JS Value :=
  let! prop := getProperty propName in
  match prop with
  | Some r => let! p := deref r in ret (MiotProperty.getValue p)
  | None => ret VUndefined
  end.

Definition getSafePropertyValue (propName : string) : JS Value :=
  let! prop := getProperty propName in
  match prop with
  | Some r => let! p := deref r in ret (MiotProperty.getSafeValue p)
  | None => ret (VNum 0)
  end.

(** The result is the range, or the empty array. *)
Definition getPropertyValueRange (propName : string) : JS (list Z) :=
  let! d := this in
  if hasProperty d propName then
    let! prop := getProperty propName in
    match prop with
    | Some r =>
        let! p := deref r in
        if MiotProperty.hasValueRange p
        then ret (default [] (MiotProperty.getValueRange p))
        else ret []
    | None => throw TypeError
    end
  else ret [].

(** The result is the value list, or the empty array. *)
Definition getPropertyValueList (propName : string)
    : JS (list MiotProperty.ValueListEntry) :=
  let! d := this in
  if hasProperty d propName then
    let! prop := getProperty propName in
    match prop with
    | Some r =>
        let! p := deref r in
        if MiotProperty.hasValueList p
        then ret (default [] (MiotProperty.getValueList p))
        else ret []
    | None => throw TypeError
    end
  else ret [].

(** *** HELPERS *)

(** A promise rejected with an error, and the rejection caught and logged:
    the promise returned is the one [catch] makes. *)
Definition createErrorPromise (msg : ErrorMsg) : JS (Outcome Returned) :=
  promise_catch (Rejected (Error msg))
    (fun err => log debug (ErrorObject err) ;; ret RUndefined).

(** *** PROTOCOL *)

Fixpoint foldM {A B : Type} (f : B -> A -> JS B) (l : list A) (acc : B) : JS B :=
  match l with
  | [] => ret acc
  | a :: l' => let! acc' := f acc a in foldM f l' acc'
  end.

Fixpoint mapM {A B : Type} (f : A -> JS B) (l : list A) : JS (list B) :=
  match l with
  | [] => ret []
  | a :: l' => let! b := f a in let! bs := mapM f l' in ret (b :: bs)
  end.

(** Only the properties which are readable, in the order of the keys. *)
Definition getAllReadableProps : JS (list (string * Ref)) :=
  let! d := this in
  let allPropKeys := obj_keys (properties d) in
  foldM (fun tmpAllReadableProps key =>
           match obj_get (properties d) key with
           | Some tmpProp =>
               let! p := deref tmpProp in
               if MiotProperty.isReadable p
               then ret (obj_set tmpAllReadableProps key tmpProp)
               else ret tmpAllReadableProps
           | None => ret tmpAllReadableProps
           end)
        allPropKeys [].

Fixpoint filterM {A : Type} (f : A -> JS bool) (l : list A) : JS (list A) :=
  match l with
  | [] => ret []
  | a :: l' =>
      let! keep := f a in
      let! rest := filterM f l' in
      ret (if keep then a :: rest else rest)
  end.

(** Only readable properties: the snapshot of their names and cached
    values. *)
Definition getAllPropNameValues : JS (list MiotProperty.NameVal) :=
  let! d := this in
  let! readablePropKeys :=
    filterM (fun key =>
               match obj_get (properties d) key with
               | Some r => let! p := deref r in ret (MiotProperty.isReadable p)
               | None => throw TypeError
               end)
            (obj_keys (properties d)) in
  mapM (fun key =>
          match obj_get (properties d) key with
          | Some r => let! p := deref r in ret (MiotProperty.getNameValObj p)
          | None => throw TypeError
          end)
       readablePropKeys.

(** Updates the property value with the value retrieved from the device.
    [result] is the object being filled; it is returned updated. *)
Definition updatePropertyValueFromDevice (result : list (string * Value))
    (propName : option string) (returnObj : Slot) : JS (list (string * Value)) :=
  if strict_eq (code returnObj) (VNum 0) then
    let! prop := getProperty (to_key propName) in
    match prop with
    | Some r =>
        setValue r (slot_value returnObj) ;;
        ret (obj_set result (to_key propName) (slot_value returnObj))
    | None => throw TypeError
    end
  else if negb (strict_eq (code returnObj) (VNum 0))
          || strict_eq (slot_value returnObj) VUndefined then
    log debug (ErrorParsingResponse (to_key propName) returnObj) ;;
    ret result
  else ret result.

(** The log lines and the error messages of [sendCommnd] and
    [requestProperty], given by their text without the parts interpolated
    into it.  How a text is made a log line or an error message is left
    open: the text plays no part in what the two methods do. *)
Class Texts := {
  line : string -> Msg;
  failure : string -> ErrorMsg
}.

(** [sendCommnd(prop, value)]; [None] is a missing property. *)
Definition sendCommnd `{Texts} (prop : option Ref) (v : Value) : JS (Outcome Returned) :=
  async
    match prop with
    | Some r =>
        let! d := this in
        if isConnected d then
          let! p := deref r in
          let cmdDef := MiotProperty.getWriteProtocolObjForDid p (deviceId d) v in
          log deepDebug (line "Send command! RAW") ;;
          let! answer := miio_call COMMAND_SET [cmdDef] in
          let! sent :=
            promise_then answer
              (fun result => log debug (line "Successfully send command") ;; ret RUndefined) in
          promise_catch sent
            (fun err => log debug (line "Error while executing command") ;; ret RUndefined)
        else
          let! p := deref r in
          createErrorPromise (failure "Cannot execute command! Device not connected!")
    | None => createErrorPromise (failure "Missing property! Cannot execute the command!")
    end.

(** The handler of a successful write. *)
Definition setProperty_then (prop : Ref) (propName : string) (v : Value)
    (result : list Slot) : JS Returned :=
  log debug (SetSucceeded propName v result) ;;
  setValue prop v ;;
  emit DEVICE_PROPERTY_UPDATED prop ;;
  ret RUndefined.

(** The handler of a failed write. *)
Definition setProperty_catch (propName : string) (v : Value) (err : JsError)
    : JS Returned :=
  log debug (SetFailed propName v err) ;;
  ret RUndefined.

(** [setProperty(prop, value)]; [None] is a missing property. *)
Definition setProperty (prop : option Ref) (v : Value) : JS (Outcome Returned) :=
  async
    match prop with
    | Some r =>
        let! d := this in
        if isConnected d then
          let! p := deref r in
          let propDef := MiotProperty.getWriteProtocolObjForDid p (deviceId d) v in
          log deepDebug (SetRequest (MiotProperty.getName p) propDef) ;;
          let! answer := miio_call COMMAND_SET [propDef] in
          let! written := promise_then answer (setProperty_then r (MiotProperty.getName p) v) in
          promise_catch written (setProperty_catch (MiotProperty.getName p) v)
        else
          let! p := deref r in
          createErrorPromise (CannotSetNotConnected (MiotProperty.getName p) v)
    | None => createErrorPromise MissingPropertyCannotSet
    end.

(** The loop over the response: slot [i] goes to the [i]-th key. *)
Fixpoint requestAllProperties_loop (readablePropKeys : list string) (i : nat)
    (result : list Slot) (obj : list (string * Value)) : JS (list (string * Value)) :=
  match result with
  | [] => ret obj
  | returnObj :: rest =>
      let! obj' := updatePropertyValueFromDevice obj (readablePropKeys !! i) returnObj in
      requestAllProperties_loop readablePropKeys (S i) rest obj'
  end.

(** The handler of a successful batched read. *)
Definition requestAllProperties_then (readablePropKeys : list string)
    (result : list Slot) : JS Returned :=
  let! obj := requestAllProperties_loop readablePropKeys 0 result [] in
  ret (RObject obj).

Definition requestAllProperties : JS (Outcome Returned) :=
  async
    (let! d := this in
     if isConnected d then
       let! allReadableProps := getAllReadableProps in
       let readablePropKeys := obj_keys allReadableProps in
       let! allReadableProtcolProps :=
         mapM (fun key =>
                 match obj_get (properties d) key with
                 | Some r =>
                     let! p := deref r in
                     ret (MiotProperty.getReadProtocolObjForDid p (deviceId d))
                 | None => throw TypeError
                 end)
              readablePropKeys in
       let! answer := miio_call COMMAND_GET allReadableProtcolProps in
       promise_then answer (requestAllProperties_then readablePropKeys)
     else createErrorPromise CannotPollNotConnected).

(** The handler of a successful single read; [result[0]] of an empty
    response is undefined, and reading its code throws. *)
Definition requestProperty_then `{Texts} (prop : Ref) (propName : string)
    (result : list Slot) : JS Returned :=
  log debug (line "Successfully updated property value") ;;
  match result !! 0 with
  | Some returnObj =>
      let! obj := updatePropertyValueFromDevice [] (Some propName) returnObj in
      emit DEVICE_PROPERTY_UPDATED prop ;;
      ret (RObject obj)
  | None => throw TypeError
  end.

(** [requestProperty(prop)]; [None] is a missing property. *)
Definition requestProperty `{Texts} (prop : option Ref) : JS (Outcome Returned) :=
  async
    match prop with
    | Some r =>
        let! d := this in
        if isConnected d then
          let! p := deref r in
          if MiotProperty.isReadable p then
            let propDef := MiotProperty.getReadProtocolObjForDid p (deviceId d) in
            log deepDebug (line "Request property! RAW") ;;
            let! answer := miio_call COMMAND_GET [propDef] in
            let! read :=
              promise_then answer (requestProperty_then r (MiotProperty.getName p)) in
            promise_catch read
              (fun err => log debug (line "Error while requesting property") ;; ret RUndefined)
          else
            createErrorPromise (failure "Cannot update property! Property is write only!")
        else
          let! p := deref r in
          createErrorPromise (failure "Cannot update property! Device not connected!")
    | None => createErrorPromise (failure "Missing property! Cannot execute read request!")
    end.

(** [setPropertyValue(propName, value)].  A range of two or more numbers
    starts with [low] and [high]. *)
Definition setPropertyValue `{Runtime} (propName : string) (v : Value) : JS unit :=
  let! prop := getProperty propName in
  match prop with
  | Some r =>
      let! p := deref r in
      let propRange := MiotProperty.getValueRange p in
      let! v' :=
        match propRange with
        | Some (low :: high :: _) =>
            if gt v (VNum high) then
              log debug (AdjustingToMax (MiotProperty.getName p) v high) ;;
              ret (VNum high)
            else if lt v (VNum low) then
              log debug (AdjustingToMin (MiotProperty.getName p) v low) ;;
              ret (VNum low)
            else ret v
        | _ => ret v
        end in
      let! p' := deref r in
      if negb (strict_eq (MiotProperty.getValue p') v') then
        let! _ := setProperty (Some r) v' in
        ret tt
      else
        log debug (SetNotNeeded (MiotProperty.getName p') v')
  | None => ret tt
  end.

(** *** DEVICE LIFECYCLE *)

Definition gotInitialPropertiesFromDevice `{DeviceClass} : JS unit :=
  let! d := this in
  (if supportsUseTimeReporting d
   then log info (TotalUseTime (getUseTime d))
   else ret tt) ;;
  initialPropertyFetchDone.

Definition doInitialPropertiesFetch `{DeviceClass} : JS unit :=
  log info DoingInitialFetch ;;
  let! fetched := requestAllProperties in
  let! handled :=
    promise_then fetched
      (fun _ => log debug GotInitialProperties ;; gotInitialPropertiesFromDevice) in
  let! _ := promise_catch handled (fun err => log debug (ErrorOnInitialRequest err)) in
  ret tt.

Definition pollProperties : JS (Outcome Returned) :=
  async
    (let! d := this in
     if isConnected d then requestAllProperties
     else ret (Rejected (Error DeviceNotConnected))).

(** *** SETUP *)

(** [this.deviceInfo] holds an object from the construction on, and an
    object is truthy. *)
Definition fetchDeviceInfo : JS unit :=
  let! d := this in
  match deviceInfo d with
  | Some _ => ret tt
  | None =>
      log debug FetchingDeviceInfo ;;
      match miioDevice d with
      | Some h =>
          effect EInfo ;;
          let! got :=
            promise_then (management_info h)
              (fun i => modify (set_deviceInfo (Some i)) ;; log deepDebug GotDeviceInfo) in
          let! _ := promise_catch got (fun err => log debug CouldNotRetrieveDeviceInfo) in
          ret tt
      | None => throw TypeError
      end
  end.

Definition checkDid : JS unit :=
  try_catch
    (let! d := this in
     if negb (truthy (getDeviceId d))
     then throw (Error (CouldNotFindDeviceId (name d)))
     else ret tt)
    (fun err => log warn (ErrorObject err)).

Definition setupDevice `{DeviceClass} : JS unit :=
  log info SettingUpDevice ;;
  fetchDeviceInfo ;;
  let! d := this in
  (if negb (truthy (deviceId d)) then
     modify (set_deviceId (getDeviceId d)) ;;
     log info (GotDidFromDevice (getDeviceId d))
   else ret tt) ;;
  checkDid ;;
  log info DoingDeviceSpecificSetup ;;
  deviceSpecificSetup ;;
  doInitialPropertiesFetch ;;
  log info SetupFinished.

(** *** DEVICE CONTROL *)

Definition disconnectAndDestroyMiioDevice : JS unit :=
  let! d := this in
  match miioDevice d with
  | Some h => effect (EDestroy (id h))
  | None => ret tt
  end ;;
  modify (set_miioDevice None).

Definition updateMiioDevice `{DeviceClass} (newMiioDevice : MiioDevice) : JS unit :=
  let! d := this in
  match miioDevice d with
  | None =>
      modify (set_miioDevice (Some newMiioDevice)) ;;
      setupDevice
  | Some _ =>
      modify (set_miioDevice (Some newMiioDevice)) ;;
      log info Reconnected
  end.

(** *** INIT *)

Definition initDevice : JS unit :=
  log info InitializingProperties ;;
  initDeviceProperties ;;
  log debug DevicePropertiesDump ;;
  log info InitializingCapabilities ;;
  initDeviceCapabilities ;;
  log debug DeviceCapabilitiesDump.

(** [new MiotDevice(miioDevice, model, deviceId, name, logger)] *)
Definition constructor `{DeviceClass} (miioDevice : option MiioDevice)
    (model deviceId name : Value) : Completion unit * Device :=
  ((if negb (truthy model) then log error MissingModel else ret tt) ;;
   initDevice ;;
   match miioDevice with
   | Some h => updateMiioDevice h
   | None => ret tt
   end)
    (mkDevice deviceId model name None (Some []) [] [] [] []).

End MiotDevice.

(** ** The accessory *)

Module BaseAccessory.
Import Js MiotDevice.

(** The methods of the device classes that the mode switches call.  The
    device classes are not among the sources, so the methods are parameters;
    they read the device and leave it as it is. *)
Class ModeDevice := {
  supportsModes : Device -> Value;
  modes : Device -> list MiotProperty.ValueListEntry;
  getMode : Device -> Value;
  isPowerOn : Device -> Value
}.

(** [a && b] *)
Definition and (a b : Value) : Value := if truthy a then b else a.

(** [this.getDevice() && this.getDevice().isConnected()]; [None] is an
    accessory without a device. *)
Definition isMiotDeviceConnected (miotDevice : option Device) : Value :=
  match miotDevice with
  | Some d => VBool (isConnected d)
  | None => VUndefined
  end.

(** [getPropValue(prop, defaultValue)]: [prop == undefined] holds of
    undefined and of null. *)
Definition getPropValue (prop defaultValue : Value) : Value :=
  match prop with
  | VUndefined | VNull => defaultValue
  | _ => prop
  end.

Definition isModeSwitchOn `{ModeDevice} (miotDevice : option Device) (mode : Value) : Value :=
  match miotDevice with
  | Some d =>
      if truthy (and (isMiotDeviceConnected miotDevice) (isPowerOn d))
      then VBool (strict_eq (getMode d) mode)
      else VBool false
  | None => VBool false
  end.

(** A switch service: its name, and its id, which is a prefix followed by
    the value it stands for. *)
Record Switch : Type := mkSwitch {
  switch_name : string;
  switch_prefix : string;
  switch_value : Z
}.

(** [prepareModeControlServices()]: the switches it creates, one for each
    mode, which it adds to the accessory and keeps in
    [this.modeControlServices]; [None] is the field left undefined. *)
Definition prepareModeControlServices `{ModeDevice} (d : Device) : option (list Switch) :=
  if truthy (supportsModes d) then
    Some (map (fun mode =>
                 mkSwitch ("Mode - " ++ MiotProperty.description mode)
                          "modeControlService" (MiotProperty.entry_value mode))
              (modes d))
  else None.

(** The loop of [updateModeSwitches]: the values the switches from index [i]
    on are updated with, and whether the loop threw; [modes()[i]] beyond the
    modes is undefined, and reading its value throws. *)
Fixpoint updateModeSwitches_loop `{ModeDevice} (d : Device) (currentMode : Value)
    (i : nat) (services : list Switch) : list (Switch * Value) * Completion unit :=
  match services with
  | [] => ([], Normal tt)
  | tmpFanModeSwitch :: rest =>
      match modes d !! i with
      | Some mode =>
          let modeVal := VNum (MiotProperty.entry_value mode) in
          let isSwitchOn := and (VBool (strict_eq currentMode modeVal)) (isPowerOn d) in
          let (updates, outcome) := updateModeSwitches_loop d currentMode (S i) rest in
          ((tmpFanModeSwitch, isSwitchOn) :: updates, outcome)
      | None => ([], Throw TypeError)
      end
  end.

(** [updateModeSwitches()]: the updates of the characteristic [On] of the
    switches, in order. *)
Definition updateModeSwitches `{ModeDevice} (miotDevice : option Device)
    (modeControlServices : option (list Switch)) : list (Switch * Value) * Completion unit :=
  match modeControlServices with
  | Some services =>
      match miotDevice with
      | Some d => updateModeSwitches_loop d (getMode d) 0 services
      | None => ([], Throw TypeError)
      end
  | None => ([], Normal tt)
  end.

End BaseAccessory.

Import Js MiotDevice.

(** ** Observations on a trace *)

(** The notifications emitted. *)
Definition emitted (t : list Effect) : list (Event * Ref) :=
  omap (fun e => match e with EEmit ev r => Some (ev, r) | _ => None end) t.

(** The log line that opens the setup sequence. *)
Definition is_setup_start (e : Effect) : bool :=
  match e with ELog info SettingUpDevice => true | _ => false end.

(** How many times the setup sequence was started. *)
Definition setups (t : list Effect) : nat := length (List.filter is_setup_start t).

(** The log line of an attach that skips the setup. *)
Definition is_reconnect (e : Effect) : bool :=
  match e with ELog info Reconnected => true | _ => false end.

(** How many attaches skipped the setup. *)
Definition reconnects (t : list Effect) : nat := length (List.filter is_reconnect t).

(** Whether an effect is a batched read. *)
Definition is_read (e : Effect) : bool :=
  match e with ECall COMMAND_GET _ => true | _ => false end.

(** How many batched reads were sent. *)
Definition reads (t : list Effect) : nat := length (List.filter is_read t).

(** The value a range leaves of [v], in the words of the specification: a
    value above the maximum becomes the maximum, one below the minimum the
    minimum, any other value stays. *)
Definition clamped `{Runtime} (p : MiotProperty.t) (v : Value) : Value :=
  match MiotProperty.valueRange p with
  | Some (low :: high :: _) =>
      if gt v (VNum high) then VNum high
      else if lt v (VNum low) then VNum low
      else v
  | _ => v
  end.

(** The log line the adjustment of a value writes, if any. *)
Definition adjustment_lines `{Runtime} (p : MiotProperty.t) (v : Value) : list Effect :=
  match MiotProperty.valueRange p with
  | Some (low :: high :: _) =>
      if gt v (VNum high) then [ELog debug (AdjustingToMax (MiotProperty.getName p) v high)]
      else if lt v (VNum low) then [ELog debug (AdjustingToMin (MiotProperty.getName p) v low)]
      else []
  | _ => []
  end.

(** The write request of a property. *)
Definition write_call (p : MiotProperty.t) (d : Device) (v : Value) : Call :=
  (COMMAND_SET, [MiotProperty.getWriteProtocolObjForDid p (deviceId d) v]).

(** ** The registry invariant *)

(** What the construction and [addProperty] maintain: the keys of the
    registry are distinct, each key has a property object of its own, and
    every reference of the registry is to an object of the store. *)
Definition well_formed (d : Device) : Prop :=
  NoDup (obj_keys (properties d))
  /\ NoDup (map snd (properties d))
  /\ (forall k r, (k, r) ∈ properties d -> is_Some (store d !! r)).

(** Whether the entry of the registry is a readable property. *)
Definition readable (d : Device) (kr : string * Ref) : bool :=
  match store d !! snd kr with
  | Some p => MiotProperty.isReadable p
  | None => false
  end.

(** The readable properties, in the order of the registry. *)
Definition readable_entries (d : Device) : list (string * Ref) :=
  List.filter (readable d) (properties d).

(** The items of the batched read request. *)
Definition read_requests (d : Device) : list MiotProperty.ProtocolObj :=
  omap (fun kr : string * Ref =>
          (fun p => MiotProperty.getReadProtocolObjForDid p (deviceId d)) <$> store d !! snd kr)
       (readable_entries d).

(** ** What a method leaves alone *)

(** The fields of the device object that only the registration, the setup
    and the attach and detach methods write, and the number of property
    objects. *)
Definition same_device (d d' : Device) : Prop :=
  deviceId d' = deviceId d
  /\ model d' = model d
  /\ name d' = name d
  /\ miioDevice d' = miioDevice d
  /\ deviceInfo d' = deviceInfo d
  /\ capabilities d' = capabilities d
  /\ properties d' = properties d
  /\ length (store d') = length (store d).

(** The handles destroyed, by their id. *)
Definition destroyed (t : list Effect) : list string :=
  omap (fun e => match e with EDestroy h => Some h | _ => None end) t.

(** The trace of [d'] is the trace of [d] followed by further effects, of
    which at most [calls] are transport calls, at most [emits] are
    notifications and none destroys a handle. *)
Definition extends (calls emits : nat) (d d' : Device) : Prop :=
  exists ext,
    trace d' = trace d ++ ext
    /\ length (calls_of ext) <= calls
    /\ length (emitted ext) <= emits
    /\ destroyed ext = [].

Definition frame (calls emits : nat) (d d' : Device) : Prop :=
  same_device d d' /\ extends calls emits d d'.

(** A computation that keeps the frame from whatever device it starts, and
    makes no transport call at all from a device that is not connected. *)
Definition framed {A : Type} (calls emits : nat) (m : JS A) : Prop :=
  forall d, frame (if isConnected d then calls else 0) emits d (snd (m d)).

(** A computation that never throws. *)
Definition returns {A : Type} (m : JS A) : Prop :=
  forall d, exists a, fst (m d) = Normal a.

(** A rendering of the texts of [sendCommnd] and [requestProperty] that
    keeps none of them. *)
Definition terse : Texts :=
  {| line := fun _ => ErrorObject TypeError; failure := fun _ => DeviceNotConnected |}.

(** The device id the setup settles on: the configured one, or else the id
    of the handle without its prefix. *)
Definition resolved_id (d : Device) : Value :=
  if truthy (deviceId d) then deviceId d else getDeviceId d.

(** The steps of [setupDevice] that follow the resolution of the device
    id. *)
Definition setup_after_id `{DeviceClass} : JS unit :=
  checkDid ;;
  log info DoingDeviceSpecificSetup ;;
  deviceSpecificSetup ;;
  doInitialPropertiesFetch ;;
  log info SetupFinished.

(** The snapshot of the cache: the name and the cached value of each
    readable property, in the order of the registry. *)
Definition snapshot (d : Device) : list MiotProperty.NameVal :=
  omap (fun kr : string * Ref => MiotProperty.getNameValObj <$> store d !! snd kr)
       (readable_entries d).

(** Whether the range of [p] leaves [v] as it is, by the comparisons of the
    source: there is no range of two entries, or [v] is neither above the
    second nor below the first. *)
Definition unadjusted `{Runtime} (p : MiotProperty.t) (v : Value) : bool :=
  match MiotProperty.valueRange p with
  | Some (low :: high :: _) => negb (gt v (VNum high)) && negb (lt v (VNum low))
  | _ => true
  end.

(** ** Devices and transports of the scenarios *)

Module Scenario.

(** A transport that acknowledges every write and answers a read with one
    successful slot per request. *)
Definition obliging (ident : string) : MiioDevice :=
  mkMiio ident "zhimi.fan.za5" (Fulfilled [])
    (fun _ c =>
       match c with
       | (COMMAND_GET, ps) =>
           Fulfilled
             (map (fun q =>
                     mkSlot (VNum 0)
                            (if Z.eqb (MiotProperty.req_piid q) 1 then VBool false else VNum 1))
                  ps)
       | (_, ps) => Fulfilled (map (fun _ => mkSlot (VNum 0) VUndefined) ps)
       end).

(** A transport on which every call fails. *)
Definition failing (ident : string) : MiioDevice :=
  mkMiio ident "zhimi.fan.za5" (Rejected (TransportError "timeout"))
    (fun _ _ => Rejected (TransportError "timeout")).

(** A transport whose first call times out and that answers every later
    call with [slots]. *)
Definition late (ident : string) (slots : list Slot) : MiioDevice :=
  mkMiio ident "zhimi.fan.za5" (Fulfilled [])
    (fun history _ =>
       match history with
       | [] => Rejected (TransportError "timeout")
       | _ :: _ => Fulfilled slots
       end).

(** An answer to a read of three properties: a value, an error code, and a
    slot of code 0 that carries no value. *)
Definition mixed_answer : list Slot :=
  [mkSlot (VNum 0) (VBool true); mkSlot (VNum (-4001)) VUndefined; mkSlot (VNum 0) VUndefined].

(** A fan: [power] and [buzzer] are booleans, [fan_level] ranges over 1
    to 3. *)
Definition declare_fan : JS unit :=
  addProperty (Some "power") (Some 2%Z) (Some 1%Z) MiotProperty.FormatBool
              MiotProperty.ReadWrite None None None ;;
  addProperty (Some "fan_level") (Some 2%Z) (Some 2%Z) MiotProperty.FormatInt
              MiotProperty.ReadWrite None (Some [1%Z; 3%Z]) None ;;
  addProperty (Some "buzzer") (Some 5%Z) (Some 1%Z) MiotProperty.FormatBool
              MiotProperty.ReadWrite None None None ;;
  ret tt.

(** The device after [c], started from [d]. *)
Definition after {A : Type} (c : JS A) (d : Device) : Device := snd (c d).

(** The fan, never bound to a transport. *)
Definition unbound_fan : Device :=
  after declare_fan
        (snd (constructor (H := plain_device) None (VStr "zhimi.fan.za5") (VStr "1234")
                          (VStr "Fan"))).

(** The fan bound to a transport. *)
Definition fan_on (h : MiioDevice) : Device :=
  after (updateMiioDevice (H := plain_device) h) unbound_fan.

(** An answer of one slot to a read of three properties. *)
Definition short_answer : list Slot := [mkSlot (VNum 0) (VBool true)].

(** An answer of four slots to a read of three properties. *)
Definition long_answer : list Slot :=
  [mkSlot (VNum 0) (VBool true); mkSlot (VNum 0) (VNum 2); mkSlot (VNum 0) (VBool true);
   mkSlot (VNum 0) (VNum 7)].


(** The fan bound to a transport, with one more property, [toggle], that can
    only be written. *)
Definition fan_with_toggle (h : MiioDevice) : Device :=
  after (addProperty (Some "toggle") (Some 2%Z) (Some 3%Z) MiotProperty.FormatBool
                     MiotProperty.WriteOnly None None None)
        (fan_on h).

(** The cached value of [propName], undefined when the lookup throws. *)
Definition cached (propName : string) (d : Device) : Value :=
  match fst (getPropertyValue propName d) with
  | Normal v => v
  | Throw _ => VUndefined
  end.

(** A fan of two modes: its mode is the cached [fan_level], and it is on
    when the cached [power] says so. *)
Definition fan_modes : BaseAccessory.ModeDevice :=
  {| BaseAccessory.supportsModes := fun _ => VBool true;
     BaseAccessory.modes := fun _ =>
       [MiotProperty.mkEntry 0 "Straight wind"; MiotProperty.mkEntry 1 "Natural wind"];
     BaseAccessory.getMode := cached "fan_level";
     BaseAccessory.isPowerOn := cached "power" |}.

(** The fan bound to the obliging transport and switched on. *)
Definition running_fan : Device :=
  after (setProperty (Some 0) (VBool true)) (fan_on (obliging "miio:77")).
End Scenario.

(** ** Facts about values *)

Lemma strict_eq_refl (a : Value) : strict_eq a a = true.
Proof.
  destruct a as [| |b|n|s]; simpl; auto.
  - destruct b; reflexivity.
  - apply Z.eqb_refl.
  - apply String.eqb_refl.
Qed.

Lemma strict_eq_true (a b : Value) : strict_eq a b = true <-> a = b.
Proof.
  split.
  - destruct a as [| |x|x|x], b as [| |y|y|y]; simpl; try discriminate; auto.
    + intros E. apply Bool.eqb_prop in E. congruence.
    + intros E. apply Z.eqb_eq in E. congruence.
    + intros E. apply String.eqb_eq in E. congruence.
  - intros ->. apply strict_eq_refl.
Qed.

Lemma gt_num `{Runtime} (x y : Z) : gt (VNum x) (VNum y) = Z.ltb y x.
Proof. reflexivity. Qed.

Lemma lt_num `{Runtime} (x y : Z) : lt (VNum x) (VNum y) = Z.ltb x y.
Proof. reflexivity. Qed.

(** ** Facts about the monad *)

Lemma async_async {A : Type} (body : JS (Outcome A)) (d : Device) :
  async (async body) d = async body d.
Proof.
  unfold async. destruct (body d) as [[p|e] d']; reflexivity.
Qed.

Lemma calls_of_app (t u : list Effect) : calls_of (t ++ u) = calls_of t ++ calls_of u.
Proof. unfold calls_of. apply omap_app. Qed.

Lemma emitted_app (t u : list Effect) : emitted (t ++ u) = emitted t ++ emitted u.
Proof. unfold emitted. apply omap_app. Qed.

Ltac js_unfold :=
  unfold bind, ret, this, modify, throw, log, emit, effect, try_catch in *; simpl in *.

(** ** Objects used as dictionaries *)

Lemma obj_get_set_eq {A : Type} (obj : list (string * A)) (k : string) (a : A) :
  obj_get (obj_set obj k a) k = Some a.
Proof.
  induction obj as [|[k' b] rest IH]; simpl.
  - rewrite String.eqb_refl. reflexivity.
  - destruct (String.eqb k' k) eqn:E; simpl; rewrite E; auto.
Qed.

Lemma obj_get_set_ne {A : Type} (obj : list (string * A)) (k k' : string) (a : A) :
  k <> k' -> obj_get (obj_set obj k a) k' = obj_get obj k'.
Proof.
  intros Hne. induction obj as [|[k0 b] rest IH]; simpl.
  - destruct (String.eqb k k') eqn:E; [|reflexivity].
    apply String.eqb_eq in E. contradiction.
  - destruct (String.eqb k0 k) eqn:E; simpl.
    + apply String.eqb_eq in E. subst k0.
      destruct (String.eqb k k') eqn:E'; [|reflexivity].
      apply String.eqb_eq in E'. contradiction.
    + rewrite IH. reflexivity.
Qed.

Lemma obj_get_None {A : Type} (obj : list (string * A)) (k : string) :
  obj_get obj k = None <-> k ∉ obj_keys obj.
Proof.
  induction obj as [|[k' b] rest IH]; simpl.
  - split; [intros _; apply not_elem_of_nil | reflexivity].
  - rewrite not_elem_of_cons. destruct (String.eqb k' k) eqn:E.
    + apply String.eqb_eq in E. subst k'. split; [discriminate|]. intros [Hne _]. congruence.
    + apply String.eqb_neq in E. rewrite IH. split; [intros Hn; split; congruence | tauto].
Qed.

Lemma obj_set_fresh {A : Type} (obj : list (string * A)) (k : string) (a : A) :
  obj_get obj k = None -> obj_set obj k a = obj ++ [(k, a)].
Proof.
  induction obj as [|[k' b] rest IH]; simpl; [reflexivity|].
  destruct (String.eqb k' k); [discriminate|].
  intros Hn. rewrite IH by exact Hn. reflexivity.
Qed.

Lemma obj_get_app_fresh {A : Type} (pre obj : list (string * A)) (k : string) :
  k ∉ obj_keys pre -> obj_get (pre ++ obj) k = obj_get obj k.
Proof.
  induction pre as [|[k' b] rest IH]; simpl; [reflexivity|].
  rewrite not_elem_of_cons. intros [Hne Hn].
  destruct (String.eqb k' k) eqn:E.
  - apply String.eqb_eq in E. congruence.
  - apply IH, Hn.
Qed.

Lemma obj_get_elem {A : Type} (obj : list (string * A)) (k : string) (a : A) :
  NoDup (obj_keys obj) -> (k, a) ∈ obj -> obj_get obj k = Some a.
Proof.
  induction obj as [|[k' b] rest IH]; simpl.
  - intros _ Hin. apply elem_of_nil in Hin. contradiction.
  - rewrite NoDup_cons, elem_of_cons. intros [Hfresh Hnd] [Heq|Hin].
    + injection Heq as <- <-. rewrite String.eqb_refl. reflexivity.
    + destruct (String.eqb k' k) eqn:E.
      * apply String.eqb_eq in E. subst k'. exfalso. apply Hfresh.
        unfold obj_keys. apply (list_elem_of_fmap_2 fst _ (k, a)). exact Hin.
      * apply IH; assumption.
Qed.

(** ** Lookups of names that are not registered *)

Lemma getProperty_absent (d : Device) (propName : string) :
  obj_get (properties d) propName = None ->
  getProperty propName d
  = (Normal None, set_trace (trace d ++ [ELog warn (PropertyNotFound propName)]) d).
Proof.
  intros Habs. unfold getProperty. js_unfold. rewrite Habs. reflexivity.
Qed.

Lemma getProperty_present (d : Device) (propName : string) (r : Ref) :
  obj_get (properties d) propName = Some r ->
  getProperty propName d = (Normal (Some r), d).
Proof.
  intros Hreg. unfold getProperty. js_unfold. rewrite Hreg. reflexivity.
Qed.

Lemma deref_live (d : Device) (r : Ref) (p : MiotProperty.t) :
  store d !! r = Some p -> deref r d = (Normal p, d).
Proof.
  intros Hlive. unfold deref. js_unfold. rewrite Hlive. reflexivity.
Qed.



(** ** Registration *)



(** ** The registry invariant holds *)

Lemma obj_set_keys {A : Type} (obj : list (string * A)) (k : string) (a : A) :
  obj_keys (obj_set obj k a)
  = match obj_get obj k with
    | Some _ => obj_keys obj
    | None => obj_keys obj ++ [k]
    end.
Proof.
  induction obj as [|[k' b] rest IH]; simpl; [reflexivity|].
  destruct (String.eqb k' k) eqn:E; simpl; [reflexivity|].
  rewrite IH. destruct (obj_get rest k); reflexivity.
Qed.

Lemma obj_set_elem {A : Type} (obj : list (string * A)) (k : string) (a : A) (x : string * A) :
  x ∈ obj_set obj k a -> x = (k, a) \/ x ∈ obj.
Proof.
  induction obj as [|[k' b] rest IH]; simpl.
  - rewrite elem_of_cons. intros [->|Hin]; [left; reflexivity | right; exact Hin].
  - destruct (String.eqb k' k) eqn:E.
    + apply String.eqb_eq in E. subst k'.
      rewrite !elem_of_cons. intros [->|Hin]; [left; reflexivity | right; right; exact Hin].
    + rewrite !elem_of_cons. intros [->|Hin]; [right; left; reflexivity|].
      destruct (IH Hin) as [->|Hin']; [left; reflexivity | right; right; exact Hin'].
Qed.

Lemma obj_set_refs (obj : list (string * Ref)) (k : string) (r : Ref) :
  NoDup (map snd obj) -> r ∉ map snd obj -> NoDup (map snd (obj_set obj k r)).
Proof.
  induction obj as [|[k' r'] rest IH]; simpl.
  - intros _ _. apply NoDup_singleton.
  - rewrite NoDup_cons, not_elem_of_cons. intros [Hfresh Hnd] [Hne Hr].
    destruct (String.eqb k' k); simpl; apply NoDup_cons.
    + split; [exact Hr | exact Hnd].
    + split; [|apply IH; assumption].
      intros Hin. apply list_elem_of_fmap in Hin as [[k0 r0] [Heq Hin]]. simpl in Heq. subst r0.
      apply obj_set_elem in Hin as [Heq|Hin].
      * injection Heq as _ Heq. congruence.
      * apply Hfresh. apply (list_elem_of_fmap_2 snd _ (k0, r')). exact Hin.
Qed.

(** [addProperty] keeps the registry well formed, whatever its arguments. *)
Lemma addProperty_well_formed (d : Device)
    (pname : option string) (siid piid : option Z)
    (format : MiotProperty.Format) (access : MiotProperty.Access)
    (unit : option string) (valueRange : option (list Z))
    (valueList : option (list MiotProperty.ValueListEntry)) :
  well_formed d ->
  well_formed (snd (addProperty pname siid piid format access unit valueRange valueList d)).
Proof.
  intros Hwf. unfold addProperty.
  destruct pname as [n|]; [|exact Hwf].
  destruct (String.eqb n ""); [exact Hwf|].
  destruct siid as [s|], piid as [p|]; try exact Hwf.
  destruct (Z.eqb s 0 || Z.eqb p 0); [exact Hwf|].
  destruct Hwf as (Hndk & Hndr & Hlive).
  js_unfold. unfold well_formed. simpl.
  assert (Hfresh : length (store d) ∉ map snd (properties d)).
  { intros Hin. apply list_elem_of_fmap in Hin as [[k r] [Heq Hin]]. simpl in Heq.
    destruct (Hlive k r Hin) as [q Hq]. apply lookup_lt_Some in Hq. lia. }
  split; [|split].
  - rewrite obj_set_keys. destruct (obj_get (properties d) n) eqn:Hget; [exact Hndk|].
    apply NoDup_app. split; [exact Hndk|]. split; [|apply NoDup_singleton].
    intros x Hx Hin. apply list_elem_of_singleton in Hin. subst x.
    apply obj_get_None in Hget. contradiction.
  - apply obj_set_refs; assumption.
  - intros k r Hin. apply obj_set_elem in Hin as [Heq|Hin].
    + injection Heq as -> ->. rewrite lookup_app_r by lia.
      rewrite Nat.sub_diag. eexists. reflexivity.
    + destruct (Hlive k r Hin) as [q Hq]. exists q.
      rewrite lookup_app_l by (eapply lookup_lt_Some; exact Hq). exact Hq.
Qed.

(** A device is well formed when it has been constructed without a
    transport. *)
Lemma constructor_well_formed `{DeviceClass} (model deviceId name : Value) :
  well_formed (snd (constructor None model deviceId name)).
Proof.
  unfold constructor, initDevice. js_unfold.
  destruct (truthy model); simpl; (split; [|split]); simpl;
    try apply NoDup_nil_2;
    intros k r Hin; apply elem_of_nil in Hin; contradiction.
Qed.

(** ** Polling *)

(** C7. [pollProperties] on a device without a transport handle returns a
    promise rejected with the error [Device not connected] and leaves the
    device, and so the trace of transport calls, as it was; this holds in
    particular for a device constructed without a transport.  On a connected
    device it is [requestAllProperties]: the same outcome and the same
    effects. *)
Theorem pollProperties_guards_connectivity `{DeviceClass} (d : Device)
    (model deviceId name : Value) :
  pollProperties d
  = (if isConnected d then requestAllProperties d
     else (Normal (Rejected (Error DeviceNotConnected)), d))
  /\ fst (pollProperties (snd (constructor None model deviceId name)))
     = Normal (Rejected (Error DeviceNotConnected))
  /\ calls_of (trace (snd (pollProperties (snd (constructor None model deviceId name)))))
     = [].
Proof.
  assert (Hgen : forall d', pollProperties d'
                 = (if isConnected d' then requestAllProperties d'
                    else (Normal (Rejected (Error DeviceNotConnected)), d'))).
  { intros d'. unfold pollProperties at 1. unfold async at 1. unfold bind, this.
    destruct (isConnected d') eqn:Hcon.
    - unfold requestAllProperties. fold (async (A := Returned)).
      match goal with |- context [async ?b d'] =>
        change (async (async b) d' = async b d'); apply async_async end.
    - reflexivity. }
  split; [apply Hgen|].
  rewrite Hgen.
  unfold constructor. js_unfold. unfold initDevice. js_unfold.
  destruct (truthy model); simpl; split; reflexivity.
Qed.

(** C6, as amended.  [requestAllProperties] on a device without a transport
    handle makes no transport call and changes no cached value; the promise it
    returns is the one [createErrorPromise] makes, which has caught and
    logged its own rejection, so it is fulfilled with undefined. *)
Theorem requestAllProperties_disconnected (d : Device) :
  isConnected d = false ->
  requestAllProperties d
  = (Normal (Fulfilled RUndefined),
     set_trace (trace d ++ [ELog debug (ErrorObject (Error CannotPollNotConnected))]) d)
  /\ calls_of (trace (snd (requestAllProperties d))) = calls_of (trace d)
  /\ store (snd (requestAllProperties d)) = store d.
Proof.
  intros Hdis.
  assert (Heq : requestAllProperties d
                = (Normal (Fulfilled RUndefined),
                   set_trace (trace d ++ [ELog debug (ErrorObject (Error CannotPollNotConnected))]) d)).
  { unfold requestAllProperties, async. js_unfold. rewrite Hdis. reflexivity. }
  rewrite Heq. simpl. repeat split.
  rewrite calls_of_app. simpl. apply app_nil_r.
Qed.

Lemma requestAllProperties_disconnected_witness :
  fst (requestAllProperties Scenario.unbound_fan) = Normal (Fulfilled RUndefined).
Proof.
  rewrite (proj1 (requestAllProperties_disconnected Scenario.unbound_fan eq_refl)).
  reflexivity.
Defined.

(** C6, as stated, fails: on the fan that was never bound to a transport the
    promise of [requestAllProperties] is not rejected. *)
Lemma requestAllProperties_unbound_not_rejected :
  isConnected Scenario.unbound_fan = false
  /\ ~ (exists e, fst (requestAllProperties Scenario.unbound_fan) = Normal (Rejected e)).
Proof.
  split; [reflexivity|].
  intros [e He]. vm_compute in He. discriminate He.
Qed.

(** ** Single writes *)

Lemma setProperty_connected (d : Device) (h : MiioDevice) (r : Ref)
    (p : MiotProperty.t) (v : Value) :
  miioDevice d = Some h ->
  store d !! r = Some p ->
  let propDef := MiotProperty.getWriteProtocolObjForDid p (deviceId d) v in
  let propName := MiotProperty.getName p in
  setProperty (Some r) v d
  = match call h (calls_of (trace d)) (write_call p d v) with
    | Fulfilled result =>
        (Normal (Fulfilled RUndefined),
         set_trace (trace d ++ [ELog deepDebug (SetRequest propName propDef);
                                ECall COMMAND_SET [propDef];
                                ELog debug (SetSucceeded propName v result);
                                EEmit DEVICE_PROPERTY_UPDATED r])
           (set_store (<[r := MiotProperty.setValue p v]> (store d)) d))
    | Rejected e =>
        (Normal (Fulfilled RUndefined),
         set_trace (trace d ++ [ELog deepDebug (SetRequest propName propDef);
                                ECall COMMAND_SET [propDef];
                                ELog debug (SetFailed propName v e)]) d)
    end.
Proof.
  intros Hcon Hlive propDef propName.
  unfold setProperty, async, isConnected, miio_call, deref.
  js_unfold. rewrite Hcon, Hlive. simpl. rewrite Hcon.
  rewrite calls_of_app. simpl. rewrite app_nil_r.
  unfold write_call. fold propDef. fold propName.
  destruct (call h (calls_of (trace d)) (COMMAND_SET, [propDef])) as [result|e].
  - unfold promise_then, promise_catch, setProperty_then, setValue, deref.
    js_unfold. rewrite Hlive. simpl.
    unfold set_trace, set_store. simpl.
    rewrite <- !app_assoc. reflexivity.
  - unfold promise_then, promise_catch, setProperty_catch.
    js_unfold. unfold set_trace. simpl.
    rewrite <- !app_assoc. reflexivity.
Qed.

Lemma setProperty_disconnected (d : Device) (r : Ref) (p : MiotProperty.t) (v : Value) :
  miioDevice d = None ->
  store d !! r = Some p ->
  setProperty (Some r) v d
  = (Normal (Fulfilled RUndefined),
     set_trace (trace d ++ [ELog debug (ErrorObject
                   (Error (CannotSetNotConnected (MiotProperty.getName p) v)))]) d).
Proof.
  intros Hdis Hlive.
  unfold setProperty, async, isConnected, deref, createErrorPromise, promise_catch.
  js_unfold. rewrite Hdis, Hlive. reflexivity.
Qed.

(** C4. On a connected device, a write of [v] to a registered property
    whose transport call succeeds overwrites the cached value with [v], so
    that [getPropertyValue] returns [v] right after it, sends the one write
    request and emits exactly one property-updated notification, which
    carries the property. *)
Theorem setProperty_success (d : Device) (h : MiioDevice) (propName : string)
    (r : Ref) (p : MiotProperty.t) (v : Value) (result : list Slot) :
  miioDevice d = Some h ->
  obj_get (properties d) propName = Some r ->
  store d !! r = Some p ->
  call h (calls_of (trace d)) (write_call p d v) = Fulfilled result ->
  let d' := snd (setProperty (Some r) v d) in
  fst (setProperty (Some r) v d) = Normal (Fulfilled RUndefined)
  /\ store d' !! r = Some (MiotProperty.setValue p v)
  /\ fst (getPropertyValue propName d') = Normal v
  /\ emitted (trace d') = emitted (trace d) ++ [(DEVICE_PROPERTY_UPDATED, r)]
  /\ calls_of (trace d') = calls_of (trace d) ++ [write_call p d v].
Proof.
  intros Hcon Hreg Hlive Hok d'. subst d'.
  rewrite (setProperty_connected d h r p v Hcon Hlive). rewrite Hok. simpl.
  assert (Hlt : r < length (store d)) by (eapply lookup_lt_Some; eassumption).
  assert (Hnew : <[r := MiotProperty.setValue p v]> (store d) !! r
                 = Some (MiotProperty.setValue p v))
    by (apply list_lookup_insert_eq; exact Hlt).
  repeat split.
  - exact Hnew.
  - unfold getPropertyValue, bind.
    rewrite (getProperty_present _ propName r) by exact Hreg.
    rewrite (deref_live _ r (MiotProperty.setValue p v)) by exact Hnew.
    reflexivity.
  - rewrite emitted_app. reflexivity.
  - rewrite calls_of_app. reflexivity.
Qed.

Lemma setProperty_success_witness :
  fst (getPropertyValue "power"
         (snd (setProperty (Some 0) (VBool true) (Scenario.fan_on (Scenario.obliging "miio:77")))))
  = Normal (VBool true).
Proof.
  apply (setProperty_success (Scenario.fan_on (Scenario.obliging "miio:77"))
           (Scenario.obliging "miio:77") "power" 0
           (MiotProperty.mkProperty "power" 2 1 MiotProperty.FormatBool
              MiotProperty.ReadWrite None None None (VBool false))
           (VBool true) [mkSlot (VNum 0) VUndefined]); reflexivity.
Defined.

(** C5. On a connected device, a write to a registered property whose
    transport call fails leaves every cached value as it was, emits no
    notification, and its promise is fulfilled (with undefined), not
    rejected: the failure is logged and absorbed. *)
Theorem setProperty_failure (d : Device) (h : MiioDevice) (propName : string)
    (r : Ref) (p : MiotProperty.t) (v : Value) (e : JsError) :
  miioDevice d = Some h ->
  obj_get (properties d) propName = Some r ->
  store d !! r = Some p ->
  call h (calls_of (trace d)) (write_call p d v) = Rejected e ->
  let d' := snd (setProperty (Some r) v d) in
  fst (setProperty (Some r) v d) = Normal (Fulfilled RUndefined)
  /\ store d' = store d
  /\ fst (getPropertyValue propName d') = Normal (MiotProperty.getValue p)
  /\ emitted (trace d') = emitted (trace d).
Proof.
  intros Hcon Hreg Hlive Hfail d'. subst d'.
  rewrite (setProperty_connected d h r p v Hcon Hlive). rewrite Hfail. simpl.
  repeat split.
  - unfold getPropertyValue, bind.
    rewrite (getProperty_present _ propName r) by exact Hreg.
    rewrite (deref_live _ r p) by exact Hlive.
    reflexivity.
  - rewrite emitted_app. simpl. apply app_nil_r.
Qed.

Lemma setProperty_failure_witness :
  store (snd (setProperty (Some 0) (VBool true) (Scenario.fan_on (Scenario.failing "miio:77"))))
  = store (Scenario.fan_on (Scenario.failing "miio:77")).
Proof.
  apply (setProperty_failure (Scenario.fan_on (Scenario.failing "miio:77"))
           (Scenario.failing "miio:77") "power" 0
           (MiotProperty.mkProperty "power" 2 1 MiotProperty.FormatBool
              MiotProperty.ReadWrite None None None (VBool false))
           (VBool true) (TransportError "timeout")); reflexivity.
Defined.

(** ** Writes through [setPropertyValue] *)

Lemma calls_of_adjustment_lines `{Runtime} (p : MiotProperty.t) (v : Value) :
  calls_of (adjustment_lines p v) = [].
Proof.
  unfold adjustment_lines.
  destruct (MiotProperty.valueRange p) as [[|low [|high rest]]|]; try reflexivity.
  destruct (gt v (VNum high)); [reflexivity|].
  destruct (lt v (VNum low)); reflexivity.
Qed.

Lemma set_trace_same (d : Device) : set_trace (trace d ++ []) d = d.
Proof. destruct d. unfold set_trace. simpl. rewrite app_nil_r. reflexivity. Qed.

Lemma setProperty_returns (prop : option Ref) (v : Value) (d : Device) :
  exists o, fst (setProperty prop v d) = Normal o.
Proof.
  unfold setProperty, async.
  match goal with |- context [match ?b d with _ => _ end] => destruct (b d) as [[o|e] d'] end;
    eexists; reflexivity.
Qed.

(** [setPropertyValue] on a registered property: the value is adjusted to
    the range, then written unless it is the cached one. *)
Lemma setPropertyValue_registered `{Runtime} (d : Device) (propName : string)
    (r : Ref) (p : MiotProperty.t) (v : Value) :
  obj_get (properties d) propName = Some r ->
  store d !! r = Some p ->
  let adjusted := set_trace (trace d ++ adjustment_lines p v) d in
  setPropertyValue propName v d
  = if strict_eq (MiotProperty.getValue p) (clamped p v)
    then (Normal tt,
          set_trace (trace adjusted
                     ++ [ELog debug (SetNotNeeded (MiotProperty.getName p) (clamped p v))])
                    adjusted)
    else (Normal tt, snd (setProperty (Some r) (clamped p v) adjusted)).
Proof.
  intros Hreg Hlive adjusted.
  assert (Hlive' : store adjusted !! r = Some p) by exact Hlive.
  unfold setPropertyValue. unfold bind at 1.
  rewrite (getProperty_present d propName r Hreg).
  unfold bind at 1. rewrite (deref_live d r p Hlive).
  assert (Hadj : forall (k : Value -> JS unit),
             bind (match MiotProperty.getValueRange p with
                   | Some (low :: high :: _) =>
                       if gt v (VNum high)
                       then bind (log debug (AdjustingToMax (MiotProperty.getName p) v high))
                                 (fun _ => ret (VNum high))
                       else if lt v (VNum low)
                            then bind (log debug (AdjustingToMin (MiotProperty.getName p) v low))
                                      (fun _ => ret (VNum low))
                            else ret v
                   | _ => ret v
                   end) k d
             = k (clamped p v) adjusted).
  { intros k. unfold adjusted, adjustment_lines, clamped, MiotProperty.getValueRange.
    destruct (MiotProperty.valueRange p) as [[|low [|high rest]]|];
      try (unfold bind, ret; rewrite set_trace_same; reflexivity).
    destruct (gt v (VNum high)); [reflexivity|].
    destruct (lt v (VNum low)); [reflexivity|].
    unfold bind, ret. rewrite set_trace_same. reflexivity. }
  rewrite Hadj.
  unfold bind at 1. rewrite (deref_live adjusted r p Hlive').
  destruct (strict_eq (MiotProperty.getValue p) (clamped p v)); simpl.
  - reflexivity.
  - unfold bind, ret.
    destruct (setProperty_returns (Some r) (clamped p v) adjusted) as [o Ho].
    destruct (setProperty (Some r) (clamped p v) adjusted) as [c d2].
    simpl in Ho. subst c. reflexivity.
Qed.

(** The transport calls and the store after a write, whatever its
    outcome. *)
Lemma setProperty_footprint (d : Device) (r : Ref) (p : MiotProperty.t) (v : Value) :
  store d !! r = Some p ->
  let d' := snd (setProperty (Some r) v d) in
  calls_of (trace d')
  = calls_of (trace d) ++ (if isConnected d then [write_call p d v] else [])
  /\ (store d' = store d \/ store d' = <[r := MiotProperty.setValue p v]> (store d))
  /\ properties d' = properties d
  /\ miioDevice d' = miioDevice d
  /\ deviceId d' = deviceId d.
Proof.
  intros Hlive d'. subst d'. unfold isConnected.
  destruct (miioDevice d) as [h|] eqn:Hcon.
  - rewrite (setProperty_connected d h r p v Hcon Hlive).
    destruct (call h (calls_of (trace d)) (write_call p d v)) as [result|e]; simpl;
      rewrite calls_of_app; simpl; auto.
  - rewrite (setProperty_disconnected d r p v Hcon Hlive). simpl.
    rewrite calls_of_app. simpl. auto.
Qed.

Lemma lt_below_range `{Runtime} (v : Value) (low high : Z) :
  (low <= high)%Z -> lt v (VNum low) = true -> gt v (VNum high) = false.
Proof.
  intros Hle. unfold gt, lt.
  destruct v as [| |b|n|s]; simpl; try discriminate.
  - intros Hlt. apply Z.ltb_lt in Hlt. apply Z.ltb_ge. lia.
  - intros Hlt. apply Z.ltb_lt in Hlt. apply Z.ltb_ge. lia.
  - intros Hlt. apply Z.ltb_lt in Hlt. apply Z.ltb_ge. lia.
  - destruct (StringToNumber s) as [n|]; [|discriminate].
    intros Hlt. apply Z.ltb_lt in Hlt. apply Z.ltb_ge. lia.
Qed.

Lemma clamped_above `{Runtime} (p : MiotProperty.t) (v : Value) (low high : Z) (rest : list Z) :
  MiotProperty.valueRange p = Some (low :: high :: rest) ->
  gt v (VNum high) = true -> clamped p v = VNum high.
Proof. intros Hr Hgt. unfold clamped. rewrite Hr, Hgt. reflexivity. Qed.

Lemma clamped_below `{Runtime} (p : MiotProperty.t) (v : Value) (low high : Z) (rest : list Z) :
  MiotProperty.valueRange p = Some (low :: high :: rest) ->
  (low <= high)%Z ->
  lt v (VNum low) = true -> clamped p v = VNum low.
Proof.
  intros Hr Hle Hlt. unfold clamped.
  rewrite Hr, (lt_below_range v low high Hle Hlt), Hlt. reflexivity.
Qed.

(** The write requests [setPropertyValue] sends for a registered property,
    and what it leaves in the cache. *)
Lemma setPropertyValue_footprint `{Runtime} (d : Device) (propName : string)
    (r : Ref) (p : MiotProperty.t) (v : Value) :
  obj_get (properties d) propName = Some r ->
  store d !! r = Some p ->
  let d' := snd (setPropertyValue propName v d) in
  calls_of (trace d')
  = calls_of (trace d)
    ++ (if isConnected d && negb (strict_eq (MiotProperty.getValue p) (clamped p v))
        then [write_call p d (clamped p v)] else [])
  /\ (store d' = store d
      \/ store d' = <[r := MiotProperty.setValue p (clamped p v)]> (store d)).
Proof.
  intros Hreg Hlive d'. subst d'.
  rewrite (setPropertyValue_registered d propName r p v Hreg Hlive).
  destruct (strict_eq (MiotProperty.getValue p) (clamped p v)); simpl.
  - rewrite andb_false_r. rewrite !calls_of_app, calls_of_adjustment_lines. simpl.
    rewrite !app_nil_r. auto.
  - rewrite andb_true_r.
    set (adjusted := set_trace (trace d ++ adjustment_lines p v) d).
    destruct (setProperty_footprint adjusted r p (clamped p v) Hlive)
      as (Hcalls & Hstore & _).
    split; [|exact Hstore].
    rewrite Hcalls. simpl. rewrite calls_of_app, calls_of_adjustment_lines, app_nil_r.
    reflexivity.
Qed.

(** C2. For a registered property whose range starts with [low] and [high]:
    a value above [high] is replaced by [high], and (the range being a range,
    [low <= high]) a value below [low] is replaced by [low], before anything
    is written.  The only write request that can follow carries the bound (it
    is sent when the device is connected and the bound is not the cached
    value already), and the cache afterwards holds what it held or the bound;
    the value passed in is not sent. *)
Theorem setPropertyValue_clamps_to_range `{Runtime} (d : Device) (propName : string)
    (r : Ref) (p : MiotProperty.t) (low high : Z) (rest : list Z) (v : Value) :
  obj_get (properties d) propName = Some r ->
  store d !! r = Some p ->
  MiotProperty.valueRange p = Some (low :: high :: rest) ->
  let d' := snd (setPropertyValue propName v d) in
  let outcome (bound : Z) :=
    calls_of (trace d')
    = calls_of (trace d)
      ++ (if isConnected d && negb (strict_eq (MiotProperty.getValue p) (VNum bound))
          then [write_call p d (VNum bound)] else [])
    /\ (store d' = store d
        \/ store d' = <[r := MiotProperty.setValue p (VNum bound)]> (store d)) in
  (gt v (VNum high) = true -> outcome high)
  /\ ((low <= high)%Z -> lt v (VNum low) = true -> outcome low).
Proof.
  intros Hreg Hlive Hrange d' outcome. subst outcome d'.
  pose proof (setPropertyValue_footprint d propName r p v Hreg Hlive) as Hfoot.
  simpl in Hfoot.
  split.
  - intros Hout.
    rewrite (clamped_above p v low high rest Hrange Hout) in Hfoot. exact Hfoot.
  - intros Hle Hout.
    rewrite (clamped_below p v low high rest Hrange Hle Hout) in Hfoot. exact Hfoot.
Qed.

Lemma setPropertyValue_clamps_to_range_witness :
  let fan := Scenario.fan_on (Scenario.obliging "miio:77") in
  let request (v : Value) : Call :=
    (COMMAND_SET, [MiotProperty.mkProtocolObj (VStr "1234") 2 2 (Some v)]) in
  calls_of (trace (snd (setPropertyValue (H := no_numeric_strings) "fan_level" (VNum 5) fan)))
  = calls_of (trace fan) ++ [request (VNum 3)]
  /\ calls_of (trace (snd (setPropertyValue (H := no_numeric_strings) "fan_level" (VNum (-2))
                             fan)))
     = calls_of (trace fan) ++ [].
Proof.
  pose proof (setPropertyValue_clamps_to_range (H := no_numeric_strings)
                (Scenario.fan_on (Scenario.obliging "miio:77")) "fan_level" 1
                (MiotProperty.mkProperty "fan_level" 2 2 MiotProperty.FormatInt
                   MiotProperty.ReadWrite None (Some [1%Z; 3%Z]) None (VNum 1))
                1%Z 3%Z []) as Hclamp.
  split.
  - apply (proj1 (Hclamp (VNum 5) eq_refl eq_refl eq_refl) eq_refl).
  - apply (proj2 (Hclamp (VNum (-2)) eq_refl eq_refl eq_refl) ltac:(lia) eq_refl).
Defined.





(** ** Attaching and detaching the transport *)

Lemma updateMiioDevice_unbound `{DeviceClass} (d : Device) (h : MiioDevice) :
  miioDevice d = None ->
  updateMiioDevice h d = setupDevice (set_miioDevice (Some h) d).
Proof.
  intros Hnone. unfold updateMiioDevice. unfold bind at 1, this.
  rewrite Hnone. reflexivity.
Qed.

Lemma updateMiioDevice_bound `{DeviceClass} (d : Device) (h old : MiioDevice) :
  miioDevice d = Some old ->
  updateMiioDevice h d
  = (Normal tt, set_trace (trace d ++ [ELog info Reconnected]) (set_miioDevice (Some h) d)).
Proof.
  intros Hsome. unfold updateMiioDevice. unfold bind at 1, this.
  rewrite Hsome. reflexivity.
Qed.

Lemma disconnectAndDestroyMiioDevice_unbinds (d : Device) :
  miioDevice (snd (disconnectAndDestroyMiioDevice d)) = None
  /\ fst (disconnectAndDestroyMiioDevice d) = Normal tt.
Proof.
  unfold disconnectAndDestroyMiioDevice. js_unfold.
  destruct (miioDevice d); simpl; split; reflexivity.
Qed.

(** An attach that follows a detach runs the setup, whatever happened to the
    device before. *)
Lemma updateMiioDevice_after_detach `{DeviceClass} (d : Device) (h : MiioDevice) :
  let detached := snd (disconnectAndDestroyMiioDevice d) in
  updateMiioDevice h detached = setupDevice (set_miioDevice (Some h) detached).
Proof.
  intros detached. apply updateMiioDevice_unbound.
  apply (proj1 (disconnectAndDestroyMiioDevice_unbinds d)).
Qed.

(** C9 fails on the code for an attach that follows an explicit detach.  The
    fan is attached (the setup runs: one setup, one initial fetch), detached
    with [disconnectAndDestroyMiioDevice] and attached again: the setup has
    then run twice and two initial fetches were sent, and the second attach
    did not log the reconnect.  An attach onto a device that still holds a
    handle does skip the setup. *)
Theorem setup_runs_again_after_detach :
  let attached := Scenario.fan_on (Scenario.obliging "miio:77") in
  let detached := Scenario.after disconnectAndDestroyMiioDevice attached in
  let reattached :=
    Scenario.after (updateMiioDevice (H := plain_device) (Scenario.obliging "miio:77"))
                   detached in
  let replaced :=
    Scenario.after (updateMiioDevice (H := plain_device) (Scenario.obliging "miio:78"))
                   attached in
  (setups (trace attached) = 1 /\ reads (trace attached) = 1)
  /\ (isConnected detached = false /\ setups (trace detached) = 1)
  /\ (setups (trace reattached) = 2 /\ reads (trace reattached) = 2
      /\ reconnects (trace reattached) = 0)
  /\ (setups (trace replaced) = 1 /\ reads (trace replaced) = 1
      /\ reconnects (trace replaced) = 1).
Proof.
  repeat split; reflexivity.
Qed.

(** ** The batched read *)

Lemma getAllReadableProps_fold (d : Device) (l pre acc : list (string * Ref)) :
  properties d = pre ++ l ->
  NoDup (obj_keys (properties d)) ->
  (forall k r, (k, r) ∈ properties d -> is_Some (store d !! r)) ->
  (forall k, k ∈ obj_keys acc -> k ∈ obj_keys pre) ->
  foldM (fun tmpAllReadableProps key =>
           match obj_get (properties d) key with
           | Some tmpProp =>
               bind (deref tmpProp)
                    (fun p => if MiotProperty.isReadable p
                              then ret (obj_set tmpAllReadableProps key tmpProp)
                              else ret tmpAllReadableProps)
           | None => ret tmpAllReadableProps
           end)
        (obj_keys l) acc d
  = (Normal (acc ++ List.filter (readable d) l), d).
Proof.
  revert pre acc.
  induction l as [|[k r] l IH]; intros pre acc Hsplit Hnd Hlive Hacc; simpl.
  - unfold ret. rewrite app_nil_r. reflexivity.
  - assert (Hk : k ∉ obj_keys pre).
    { rewrite Hsplit in Hnd. unfold obj_keys in Hnd. rewrite fmap_app in Hnd.
      apply NoDup_app in Hnd as (_ & Hdisj & _).
      intros Hin. apply (Hdisj k Hin). simpl. apply elem_of_cons. left. reflexivity. }
    assert (Hget : obj_get (properties d) k = Some r).
    { rewrite Hsplit, obj_get_app_fresh by exact Hk. simpl.
      rewrite String.eqb_refl. reflexivity. }
    destruct (Hlive k r) as [p Hp].
    { rewrite Hsplit. apply elem_of_app. right. apply elem_of_cons. left. reflexivity. }
    unfold bind at 1. rewrite Hget. unfold bind at 1.
    rewrite (deref_live d r p Hp).
    assert (Hsplit' : properties d = (pre ++ [(k, r)]) ++ l)
      by (rewrite <- app_assoc; exact Hsplit).
    unfold readable at 1. simpl. rewrite Hp.
    destruct (MiotProperty.isReadable p); unfold ret at 1.
    + rewrite obj_set_fresh.
      2:{ apply obj_get_None. intros Hin. apply Hk, Hacc, Hin. }
      rewrite (IH (pre ++ [(k, r)]) (acc ++ [(k, r)]) Hsplit' Hnd Hlive).
      * rewrite <- app_assoc. reflexivity.
      * intros k'. unfold obj_keys. rewrite !fmap_app, !elem_of_app.
        intros [Hin|Hin]; [left; apply Hacc, Hin | right; exact Hin].
    + rewrite (IH (pre ++ [(k, r)]) acc Hsplit' Hnd Hlive); [reflexivity|].
      intros k' Hin. unfold obj_keys. rewrite fmap_app, elem_of_app.
      left. apply Hacc, Hin.
Qed.

Lemma getAllReadableProps_well_formed (d : Device) :
  well_formed d -> getAllReadableProps d = (Normal (readable_entries d), d).
Proof.
  intros (Hnd & _ & Hlive).
  unfold getAllReadableProps. unfold bind at 1, this.
  apply (getAllReadableProps_fold d (properties d) [] []); auto.
Qed.

Lemma elem_of_filter_list {A : Type} (f : A -> bool) (l : list A) (x : A) :
  x ∈ List.filter f l -> x ∈ l /\ f x = true.
Proof.
  rewrite !list_elem_of_In. apply List.filter_In.
Qed.

Lemma readable_entries_registered (d : Device) (k : string) (r : Ref) :
  well_formed d ->
  (k, r) ∈ readable_entries d ->
  obj_get (properties d) k = Some r
  /\ exists p, store d !! r = Some p /\ MiotProperty.isReadable p = true.
Proof.
  intros (Hnd & _ & Hlive) Hin.
  apply elem_of_filter_list in Hin as [Hin Hread].
  split; [apply obj_get_elem; assumption|].
  unfold readable in Hread. simpl in Hread.
  destruct (store d !! r) as [p|]; [|discriminate].
  exists p. split; [reflexivity | exact Hread].
Qed.

Lemma read_requests_mapM (d : Device) (entries : list (string * Ref)) :
  (forall k r, (k, r) ∈ entries ->
     obj_get (properties d) k = Some r /\ is_Some (store d !! r)) ->
  mapM (fun key =>
          match obj_get (properties d) key with
          | Some r =>
              bind (deref r)
                   (fun p => ret (MiotProperty.getReadProtocolObjForDid p (deviceId d)))
          | None => throw TypeError
          end)
       (obj_keys entries) d
  = (Normal (omap (fun kr : string * Ref =>
                     (fun p => MiotProperty.getReadProtocolObjForDid p (deviceId d))
                       <$> store d !! snd kr) entries), d).
Proof.
  induction entries as [|[k r] rest IH]; intros Hval; simpl; [reflexivity|].
  destruct (Hval k r) as [Hget [p Hp]]; [apply elem_of_cons; left; reflexivity|].
  unfold bind at 1. rewrite Hget. unfold bind at 1. rewrite (deref_live d r p Hp).
  unfold ret at 1. unfold bind at 1. rewrite IH.
  - rewrite Hp. reflexivity.
  - intros k' r' Hin. apply Hval. apply elem_of_cons. right. exact Hin.
Qed.

Lemma updatePropertyValueFromDevice_ok (d : Device) (obj : list (string * Value))
    (k : string) (r : Ref) (p : MiotProperty.t) (s : Slot) :
  obj_get (properties d) k = Some r ->
  store d !! r = Some p ->
  strict_eq (code s) (VNum 0) = true ->
  updatePropertyValueFromDevice obj (Some k) s d
  = (Normal (obj_set obj k (slot_value s)),
     set_store (<[r := MiotProperty.setValue p (slot_value s)]> (store d)) d).
Proof.
  intros Hreg Hlive Hcode.
  unfold updatePropertyValueFromDevice. rewrite Hcode. simpl.
  unfold bind at 1. rewrite (getProperty_present d k r Hreg).
  unfold setValue. unfold bind at 1. unfold bind at 1.
  rewrite (deref_live d r p Hlive). reflexivity.
Qed.

Lemma updatePropertyValueFromDevice_error (d : Device) (obj : list (string * Value))
    (propName : option string) (s : Slot) :
  strict_eq (code s) (VNum 0) = false ->
  updatePropertyValueFromDevice obj propName s d
  = (Normal obj,
     set_trace (trace d ++ [ELog debug (ErrorParsingResponse (to_key propName) s)]) d).
Proof.
  intros Hcode. unfold updatePropertyValueFromDevice. rewrite Hcode. reflexivity.
Qed.

(** The loop over the response, slot by slot: the entries of the registry
    that the keys name are distinct, so each slot decides the cache and the
    record of its own property and of no other. *)
Lemma requestAllProperties_loop_spec (entries : list (string * Ref)) :
  forall (result : list Slot) (keys : list string) (i : nat)
         (obj : list (string * Value)) (d : Device),
    length result = length entries ->
    drop i keys = map fst entries ->
    NoDup (map fst entries) ->
    NoDup (map snd entries) ->
    (forall k r, (k, r) ∈ entries ->
       obj_get (properties d) k = Some r /\ is_Some (store d !! r)) ->
    exists obj' d',
      requestAllProperties_loop keys i result obj d = (Normal obj', d')
      /\ properties d' = properties d
      /\ miioDevice d' = miioDevice d
      /\ calls_of (trace d') = calls_of (trace d)
      /\ emitted (trace d') = emitted (trace d)
      /\ length (store d') = length (store d)
      /\ (forall r, r ∉ map snd entries -> store d' !! r = store d !! r)
      /\ (forall k, k ∉ map fst entries -> obj_get obj' k = obj_get obj k)
      /\ (forall j k r s p,
            entries !! j = Some (k, r) -> result !! j = Some s -> store d !! r = Some p ->
            if strict_eq (code s) (VNum 0)
            then store d' !! r = Some (MiotProperty.setValue p (slot_value s))
                 /\ obj_get obj' k = Some (slot_value s)
            else store d' !! r = Some p /\ obj_get obj' k = obj_get obj k).
Proof.
  induction entries as [|[k r] rest IH];
    intros result keys i obj d Hlen Hkeys Hndk Hndr Hval.
  - destruct result as [|s result]; [|discriminate Hlen].
    exists obj, d. simpl. repeat split; auto.
    intros j k r s p Hj. rewrite lookup_nil in Hj. discriminate Hj.
  - destruct result as [|s result]; [discriminate Hlen|].
    simpl in Hlen. injection Hlen as Hlen.
    simpl in Hndk, Hndr. apply NoDup_cons in Hndk as [Hk Hndk].
    apply NoDup_cons in Hndr as [Hr Hndr].
    assert (Hki : keys !! i = Some k).
    { rewrite <- (Nat.add_0_r i), <- lookup_drop, Hkeys. reflexivity. }
    assert (Hkeys' : drop (S i) keys = map fst rest).
    { replace (S i) with (i + 1) by lia. rewrite <- drop_drop, Hkeys. reflexivity. }
    destruct (Hval k r) as [Hreg [p0 Hp0]]; [apply elem_of_cons; left; reflexivity|].
    assert (Hlt : r < length (store d)) by (eapply lookup_lt_Some; exact Hp0).
    simpl. unfold bind at 1. rewrite Hki.
    destruct (strict_eq (code s) (VNum 0)) eqn:Hcode.
    + rewrite (updatePropertyValueFromDevice_ok d obj k r p0 s Hreg Hp0 Hcode).
      set (d1 := set_store (<[r := MiotProperty.setValue p0 (slot_value s)]> (store d)) d).
      destruct (IH result keys (S i) (obj_set obj k (slot_value s)) d1 Hlen Hkeys' Hndk Hndr)
        as (obj' & d' & Hrun & Hprops & Hmiio & Hcalls & Hemit & Hlength & Hother & Hobj & Hslots).
      { intros k' r' Hin.
        destruct (Hval k' r') as [Hreg' [p' Hp']]; [apply elem_of_cons; right; exact Hin|].
        split; [exact Hreg'|].
        apply lookup_lt_is_Some. unfold d1. simpl. rewrite length_insert.
        eapply lookup_lt_Some. exact Hp'. }
      exists obj', d'. rewrite Hrun.
      repeat split; auto.
      * rewrite Hlength. unfold d1. simpl. apply length_insert.
      * intros r' Hr'. apply not_elem_of_cons in Hr' as [Hne Hr'].
        rewrite (Hother r' Hr'). unfold d1. simpl.
        apply list_lookup_insert_ne. congruence.
      * intros k' Hk'. apply not_elem_of_cons in Hk' as [Hne Hk'].
        rewrite (Hobj k' Hk'). apply obj_get_set_ne. congruence.
      * intros j k' r' s' p Hj Hs Hp.
        destruct j as [|j]; simpl in Hj, Hs.
        -- injection Hj as <- <-. injection Hs as <-. rewrite Hcode.
           rewrite Hp in Hp0. injection Hp0 as <-.
           rewrite (Hother r Hr), (Hobj k Hk). unfold d1. simpl.
           split; [apply list_lookup_insert_eq, Hlt | apply obj_get_set_eq].
        -- assert (Hin : (k', r') ∈ rest) by (eapply list_elem_of_lookup_2; exact Hj).
           assert (Hner : r <> r').
           { intros <-. apply Hr. apply (list_elem_of_fmap_2 snd _ (k', r)). exact Hin. }
           assert (Hnek : k <> k').
           { intros <-. apply Hk. apply (list_elem_of_fmap_2 fst _ (k, r')). exact Hin. }
           assert (Hp1 : store d1 !! r' = Some p).
           { unfold d1. simpl. rewrite list_lookup_insert_ne by exact Hner. exact Hp. }
           specialize (Hslots j k' r' s' p Hj Hs Hp1).
           destruct (strict_eq (code s') (VNum 0)); [exact Hslots|].
           destruct Hslots as [Hst Hget]. split; [exact Hst|].
           rewrite Hget. apply obj_get_set_ne. exact Hnek.
    + rewrite (updatePropertyValueFromDevice_error d obj (Some k) s Hcode).
      set (d1 := set_trace (trace d ++ [ELog debug (ErrorParsingResponse (to_key (Some k)) s)]) d).
      destruct (IH result keys (S i) obj d1 Hlen Hkeys' Hndk Hndr)
        as (obj' & d' & Hrun & Hprops & Hmiio & Hcalls & Hemit & Hlength & Hother & Hobj & Hslots).
      { intros k' r' Hin. apply (Hval k' r'). apply elem_of_cons. right. exact Hin. }
      exists obj', d'. rewrite Hrun.
      repeat split; auto.
      * rewrite Hcalls. unfold d1. simpl. rewrite calls_of_app. simpl. apply app_nil_r.
      * rewrite Hemit. unfold d1. simpl. rewrite emitted_app. simpl. apply app_nil_r.
      * intros r' Hr'. apply not_elem_of_cons in Hr' as [Hne Hr'].
        rewrite (Hother r' Hr'). reflexivity.
      * intros k' Hk'. apply not_elem_of_cons in Hk' as [Hne Hk'].
        apply (Hobj k' Hk').
      * intros j k' r' s' p Hj Hs Hp.
        destruct j as [|j]; simpl in Hj, Hs.
        -- injection Hj as <- <-. injection Hs as <-. rewrite Hcode.
           rewrite (Hother r Hr), (Hobj k Hk). split; [exact Hp | reflexivity].
        -- apply (Hslots j k' r' s' p Hj Hs). exact Hp.
Qed.

Lemma NoDup_map_filter {A B : Type} (g : A -> B) (f : A -> bool) (l : list A) :
  NoDup (map g l) -> NoDup (map g (List.filter f l)).
Proof.
  induction l as [|a l IH]; simpl; [auto|].
  rewrite NoDup_cons. intros [Hfresh Hnd].
  destruct (f a); simpl; [|auto].
  apply NoDup_cons. split; [|auto].
  intros Hin. apply Hfresh.
  apply list_elem_of_fmap in Hin as [x [-> Hx]].
  apply elem_of_filter_list in Hx as [Hx _].
  apply (list_elem_of_fmap_2 g _ x). exact Hx.
Qed.

(** The batched read on a connected, well-formed device whose transport
    answers with one slot per readable property.  Slot [i] belongs to the
    [i]-th readable property of the registry: a slot of code 0 overwrites
    the cache of its property with its value and is recorded in the object
    returned, any other slot leaves the cache of its property alone and is
    not recorded, and in both cases the loop goes on.  Properties that are
    not readable keep their cache. *)
Theorem requestAllProperties_positional (d : Device) (h : MiioDevice) (result : list Slot) :
  well_formed d ->
  miioDevice d = Some h ->
  call h (calls_of (trace d)) (COMMAND_GET, read_requests d) = Fulfilled result ->
  length result = length (readable_entries d) ->
  exists obj d',
    requestAllProperties d = (Normal (Fulfilled (RObject obj)), d')
    /\ calls_of (trace d') = calls_of (trace d) ++ [(COMMAND_GET, read_requests d)]
    /\ properties d' = properties d
    /\ (forall i k r s p,
          readable_entries d !! i = Some (k, r) -> result !! i = Some s ->
          store d !! r = Some p ->
          if strict_eq (code s) (VNum 0)
          then store d' !! r = Some (MiotProperty.setValue p (slot_value s))
               /\ obj_get obj k = Some (slot_value s)
          else store d' !! r = Some p /\ obj_get obj k = None)
    /\ (forall r, r ∉ map snd (readable_entries d) -> store d' !! r = store d !! r).
Proof.
  intros Hwf Hcon Hanswer Hlen.
  pose proof Hwf as (Hndk & Hndr & Hlive).
  assert (Hval : forall k r, (k, r) ∈ readable_entries d ->
                   obj_get (properties d) k = Some r /\ is_Some (store d !! r)).
  { intros k r Hin.
    destruct (readable_entries_registered d k r Hwf Hin) as [Hreg [p [Hp _]]].
    split; [exact Hreg | exists p; exact Hp]. }
  set (sent := set_trace (trace d ++ [ECall COMMAND_GET (read_requests d)]) d).
  destruct (requestAllProperties_loop_spec (readable_entries d) result
              (obj_keys (readable_entries d)) 0 [] sent Hlen eq_refl
              (NoDup_map_filter fst _ _ Hndk) (NoDup_map_filter snd _ _ Hndr) Hval)
    as (obj & d' & Hrun & Hprops & _ & Hcalls & _ & _ & Hother & _ & Hslots).
  exists obj, d'.
  assert (Heq : requestAllProperties d = (Normal (Fulfilled (RObject obj)), d')).
  { unfold requestAllProperties, async. unfold bind at 1, this at 1.
    unfold isConnected. rewrite Hcon.
    unfold bind at 1. rewrite (getAllReadableProps_well_formed d Hwf).
    unfold bind at 1. rewrite (read_requests_mapM d (readable_entries d) Hval).
    fold (read_requests d).
    unfold miio_call. js_unfold. rewrite Hcon. simpl. rewrite Hanswer.
    unfold promise_then, requestAllProperties_then. js_unfold.
    fold sent. rewrite Hrun. reflexivity. }
  split; [exact Heq|].
  split; [rewrite Hcalls; unfold sent; simpl; apply calls_of_app|].
  split; [exact Hprops|].
  split; [|exact Hother].
  intros i k r s p Hi Hs Hp.
  specialize (Hslots i k r s p Hi Hs Hp).
  destruct (strict_eq (code s) (VNum 0)); exact Hslots.
Qed.

Lemma late_fan_well_formed :
  well_formed (Scenario.fan_on (Scenario.late "miio:77" Scenario.mixed_answer)).
Proof.
  split; [|split].
  - change (NoDup ["power"; "fan_level"; "buzzer"]).
    repeat (apply NoDup_cons_2;
            [rewrite ?not_elem_of_cons; repeat split;
             try discriminate; apply not_elem_of_nil|]).
    apply NoDup_nil_2.
  - change (NoDup [0; 1; 2]).
    repeat (apply NoDup_cons_2;
            [rewrite ?not_elem_of_cons; repeat split;
             try discriminate; apply not_elem_of_nil|]).
    apply NoDup_nil_2.
  - intros k r Hin.
    change ((k, r) ∈ [("power", 0); ("fan_level", 1); ("buzzer", 2)]) in Hin.
    apply lookup_lt_is_Some. change (r < 3).
    repeat (apply elem_of_cons in Hin as [Hin|Hin]; [injection Hin as _ ->; lia|]).
    apply elem_of_nil in Hin. contradiction.
Qed.

Lemma requestAllProperties_positional_witness :
  exists obj d',
    requestAllProperties (Scenario.fan_on (Scenario.late "miio:77" Scenario.mixed_answer))
    = (Normal (Fulfilled (RObject obj)), d').
Proof.
  destruct (requestAllProperties_positional
              (Scenario.fan_on (Scenario.late "miio:77" Scenario.mixed_answer))
              (Scenario.late "miio:77" Scenario.mixed_answer) Scenario.mixed_answer
              late_fan_well_formed eq_refl eq_refl eq_refl)
    as (obj & d' & Hrun & _).
  exists obj, d'. exact Hrun.
Defined.

(** C1 fails on the code for a slot of code 0 that carries no value.  The
    first poll of the fan timed out, so the caches hold [false], [0] and
    [false].  The second poll is answered with a good slot for [power], a
    slot of code -4001 for [fan_level] and a slot of code 0 without a value
    for [buzzer].  [power] is updated and recorded and [fan_level] is left
    alone and not recorded, but the cache of [buzzer] is overwritten with
    undefined and [buzzer] is recorded in the result. *)
Theorem requestAllProperties_slot_without_value :
  let d := Scenario.fan_on (Scenario.late "miio:77" Scenario.mixed_answer) in
  let polled := requestAllProperties d in
  (MiotProperty.value <$> store d) = [VBool false; VNum 0; VBool false]
  /\ fst polled
     = Normal (Fulfilled (RObject [("power", VBool true); ("buzzer", VUndefined)]))
  /\ (MiotProperty.value <$> store (snd polled)) = [VBool true; VNum 0; VUndefined].
Proof.
  repeat split; reflexivity.
Qed.

(** ** What a method leaves alone *)

Lemma same_device_refl (d : Device) : same_device d d.
Proof. repeat split. Qed.

Lemma same_device_trans (d d1 d2 : Device) :
  same_device d d1 -> same_device d1 d2 -> same_device d d2.
Proof.
  intros (A1 & A2 & A3 & A4 & A5 & A6 & A7 & A8) (B1 & B2 & B3 & B4 & B5 & B6 & B7 & B8).
  repeat split; congruence.
Qed.

Lemma destroyed_app (t u : list Effect) : destroyed (t ++ u) = destroyed t ++ destroyed u.
Proof. unfold destroyed. apply omap_app. Qed.

Lemma same_device_connected (d d' : Device) :
  same_device d d' -> isConnected d' = isConnected d.
Proof. intros (_ & _ & _ & Hm & _). unfold isConnected. rewrite Hm. reflexivity. Qed.

Lemma frame_refl (c e : nat) (d : Device) : frame c e d d.
Proof.
  split; [apply same_device_refl|].
  exists []. rewrite app_nil_r. simpl. repeat split; lia.
Qed.

Lemma frame_trans (c1 e1 c2 e2 : nat) (d d1 d2 : Device) :
  frame c1 e1 d d1 -> frame c2 e2 d1 d2 -> frame (c1 + c2) (e1 + e2) d d2.
Proof.
  intros [S1 (x1 & T1 & C1 & E1 & D1)] [S2 (x2 & T2 & C2 & E2 & D2)].
  split; [eapply same_device_trans; eassumption|].
  exists (x1 ++ x2). rewrite T2, T1, <- app_assoc.
  rewrite calls_of_app, emitted_app, destroyed_app, D1, D2, !length_app.
  repeat split; lia.
Qed.

Lemma frame_weaken (c e c' e' : nat) (d d' : Device) :
  c <= c' -> e <= e' -> frame c e d d' -> frame c' e' d d'.
Proof.
  intros Hc He [S (x & T & C & E & D)]. split; [exact S|].
  exists x. repeat split; [exact T | lia | lia | exact D].
Qed.

Lemma framed_weaken {A : Type} (c e c' e' : nat) (m : JS A) :
  c <= c' -> e <= e' -> framed c e m -> framed c' e' m.
Proof.
  intros Hc He Hm d. eapply frame_weaken; [| exact He | apply Hm].
  destruct (isConnected d); lia.
Qed.

Lemma framed_ret {A : Type} (c e : nat) (a : A) : framed c e (ret a).
Proof. intros d. apply frame_refl. Qed.

Lemma framed_throw {A : Type} (c e : nat) (err : JsError) : framed c e (throw (A := A) err).
Proof. intros d. apply frame_refl. Qed.

Lemma framed_this (c e : nat) : framed c e this.
Proof. intros d. apply frame_refl. Qed.

Lemma framed_bind {A B : Type} (c1 e1 c2 e2 c e : nat) (m : JS A) (k : A -> JS B) :
  c1 + c2 <= c -> e1 + e2 <= e ->
  framed c1 e1 m -> (forall a, framed c2 e2 (k a)) -> framed c e (bind m k).
Proof.
  intros Hc He Hm Hk d. unfold bind.
  pose proof (Hm d) as Hd. destruct (m d) as [[a|err] d1]; simpl in Hd.
  - pose proof (Hk a d1) as Hd1.
    rewrite (same_device_connected d d1 (proj1 Hd)) in Hd1.
    eapply frame_weaken; [| exact He | eapply frame_trans; [exact Hd | exact Hd1]].
    destruct (isConnected d); lia.
  - simpl. eapply frame_weaken; [| | exact Hd]; [destruct (isConnected d)|]; lia.
Qed.

Lemma framed_log (c e : nat) (l : Level) (m : Msg) : framed c e (log l m).
Proof.
  intros d. unfold log, effect, modify. simpl. split; [repeat split|].
  exists [ELog l m]. simpl. repeat split; lia.
Qed.

Lemma framed_emit (c e : nat) (ev : Event) (r : Ref) : 1 <= e -> framed c e (emit ev r).
Proof.
  intros He d. unfold emit, effect, modify. simpl. split; [repeat split|].
  exists [EEmit ev r]. simpl. repeat split; lia.
Qed.

Lemma framed_miio_call (c e : nat) (cmd : Command) (params : list MiotProperty.ProtocolObj) :
  1 <= c -> framed c e (miio_call cmd params).
Proof.
  intros Hc d. unfold miio_call, bind, this, effect, modify, ret, isConnected.
  destruct (miioDevice d) as [h|]; simpl; [|apply frame_refl].
  split; [repeat split|].
  exists [ECall cmd params]. simpl. repeat split; lia.
Qed.

Lemma framed_deref (c e : nat) (r : Ref) : framed c e (deref r).
Proof.
  intros d. unfold deref, bind, this. destruct (store d !! r); apply frame_refl.
Qed.

Lemma framed_setValue (c e : nat) (r : Ref) (v : Value) : framed c e (setValue r v).
Proof.
  intros d. unfold setValue, deref, bind, this, modify.
  destruct (store d !! r) as [p|]; simpl; [|apply frame_refl].
  split.
  - repeat split. simpl. apply length_insert.
  - exists []. simpl. rewrite app_nil_r. repeat split; lia.
Qed.

Lemma framed_try_catch {A : Type} (c1 e1 c2 e2 c e : nat) (m : JS A) (h : JsError -> JS A) :
  c1 + c2 <= c -> e1 + e2 <= e ->
  framed c1 e1 m -> (forall err, framed c2 e2 (h err)) -> framed c e (try_catch m h).
Proof.
  intros Hc He Hm Hh d. unfold try_catch.
  pose proof (Hm d) as Hd. destruct (m d) as [[a|err] d1]; simpl in Hd.
  - simpl. eapply frame_weaken; [| | exact Hd]; [destruct (isConnected d)|]; lia.
  - pose proof (Hh err d1) as Hd1.
    rewrite (same_device_connected d d1 (proj1 Hd)) in Hd1.
    eapply frame_weaken; [| exact He | eapply frame_trans; [exact Hd | exact Hd1]].
    destruct (isConnected d); lia.
Qed.

Lemma framed_promise_then {A B : Type} (c e : nat) (p : Outcome A) (h : A -> JS B) :
  (forall a, framed c e (h a)) -> framed c e (promise_then p h).
Proof.
  intros Hh d. unfold promise_then. destruct p as [a|err]; [|apply frame_refl].
  pose proof (Hh a d) as Hd. destruct (h a d) as [[b|err] d1]; exact Hd.
Qed.

Lemma framed_promise_catch {A : Type} (c e : nat) (p : Outcome A) (h : JsError -> JS A) :
  (forall err, framed c e (h err)) -> framed c e (promise_catch p h).
Proof.
  intros Hh d. unfold promise_catch. destruct p as [a|err]; [apply frame_refl|].
  pose proof (Hh err d) as Hd. destruct (h err d) as [[b|err'] d1]; exact Hd.
Qed.

Lemma framed_async {A : Type} (c e : nat) (body : JS (Outcome A)) :
  framed c e body -> framed c e (async body).
Proof.
  intros Hb d. unfold async. pose proof (Hb d) as Hd.
  destruct (body d) as [[p|err] d1]; exact Hd.
Qed.

Lemma framed_foldM {A B : Type} (f : B -> A -> JS B) (l : list A) (acc : B) :
  (forall b a, framed 0 0 (f b a)) -> framed 0 0 (foldM f l acc).
Proof.
  intros Hf. revert acc. induction l as [|a l IH]; intros acc; simpl.
  - apply framed_ret.
  - apply (framed_bind 0 0 0 0); [lia | lia | apply Hf | intros b; apply IH].
Qed.

Lemma framed_mapM {A B : Type} (f : A -> JS B) (l : list A) :
  (forall a, framed 0 0 (f a)) -> framed 0 0 (mapM f l).
Proof.
  intros Hf. induction l as [|a l IH]; simpl.
  - apply framed_ret.
  - apply (framed_bind 0 0 0 0); [lia | lia | apply Hf | intros b].
    apply (framed_bind 0 0 0 0); [lia | lia | exact IH | intros bs; apply framed_ret].
Qed.

Lemma framed_filterM {A : Type} (f : A -> JS bool) (l : list A) :
  (forall a, framed 0 0 (f a)) -> framed 0 0 (filterM f l).
Proof.
  intros Hf. induction l as [|a l IH]; simpl.
  - apply framed_ret.
  - apply (framed_bind 0 0 0 0); [lia | lia | apply Hf | intros b].
    apply (framed_bind 0 0 0 0); [lia | lia | exact IH | intros bs; apply framed_ret].
Qed.

(** Sequencing after a step that makes no call and emits nothing. *)
Ltac fr_step :=
  match goal with
  | |- framed ?c ?e (bind _ _) => apply (framed_bind 0 0 c e c e); [lia | lia | | intros ?]
  end.

Lemma framed_getProperty (c e : nat) (propName : string) : framed c e (getProperty propName).
Proof.
  unfold getProperty. fr_step; [apply framed_this|].
  destruct (obj_get (properties a) propName).
  - apply framed_ret.
  - fr_step; [apply framed_log | apply framed_ret].
Qed.

Lemma framed_createErrorPromise (c e : nat) (msg : ErrorMsg) :
  framed c e (createErrorPromise msg).
Proof.
  unfold createErrorPromise. apply framed_promise_catch. intros err.
  fr_step; [apply framed_log | apply framed_ret].
Qed.

Lemma framed_updatePropertyValueFromDevice (c e : nat) (obj : list (string * Value))
    (propName : option string) (s : Slot) :
  framed c e (updatePropertyValueFromDevice obj propName s).
Proof.
  unfold updatePropertyValueFromDevice.
  destruct (strict_eq (code s) (VNum 0)).
  - fr_step; [apply framed_getProperty|].
    destruct a as [r|]; [|apply framed_throw].
    fr_step; [apply framed_setValue | apply framed_ret].
  - simpl. fr_step; [apply framed_log | apply framed_ret].
Qed.

Lemma framed_getAllReadableProps : framed 0 0 getAllReadableProps.
Proof.
  unfold getAllReadableProps. fr_step; [apply framed_this|].
  apply framed_foldM. intros tmp key.
  destruct (obj_get (properties a) key) as [r|]; [|apply framed_ret].
  fr_step; [apply framed_deref|].
  destruct (MiotProperty.isReadable a0); apply framed_ret.
Qed.

Lemma framed_requestAllProperties_loop (keys : list string) (result : list Slot) :
  forall (i : nat) (obj : list (string * Value)),
    framed 0 0 (requestAllProperties_loop keys i result obj).
Proof.
  induction result as [|s result IH]; intros i obj; simpl.
  - apply framed_ret.
  - fr_step; [apply framed_updatePropertyValueFromDevice | apply IH].
Qed.

Lemma framed_requestAllProperties : framed 1 0 requestAllProperties.
Proof.
  unfold requestAllProperties. apply framed_async.
  fr_step; [apply framed_this|].
  destruct (isConnected a); [|apply framed_createErrorPromise].
  fr_step; [apply framed_getAllReadableProps|].
  fr_step.
  { apply framed_mapM. intros key.
    destruct (obj_get (properties a) key) as [r|]; [|apply framed_throw].
    fr_step; [apply framed_deref | apply framed_ret]. }
  apply (framed_bind 1 0 0 0); [lia | lia | apply framed_miio_call; lia | intros answer].
  apply framed_promise_then. intros result. unfold requestAllProperties_then.
  fr_step; [apply framed_requestAllProperties_loop | apply framed_ret].
Qed.

Lemma framed_pollProperties : framed 1 0 pollProperties.
Proof.
  unfold pollProperties. apply framed_async.
  fr_step; [apply framed_this|].
  destruct (isConnected a); [apply framed_requestAllProperties | apply framed_ret].
Qed.

Lemma framed_setProperty (prop : option Ref) (v : Value) : framed 1 1 (setProperty prop v).
Proof.
  unfold setProperty. apply framed_async.
  destruct prop as [r|]; [|apply framed_createErrorPromise].
  fr_step; [apply framed_this|].
  destruct (isConnected a).
  - fr_step; [apply framed_deref|].
    fr_step; [apply framed_log|].
    apply (framed_bind 1 0 0 1); [lia | lia | apply framed_miio_call; lia | intros answer].
    apply (framed_bind 0 1 0 0); [lia | lia | | intros ?].
    + apply framed_promise_then. intros result. unfold setProperty_then.
      fr_step; [apply framed_log|].
      fr_step; [apply framed_setValue|].
      apply (framed_bind 0 1 0 0); [lia | lia | apply framed_emit; lia | intros; apply framed_ret].
    + apply framed_promise_catch. intros err. unfold setProperty_catch.
      fr_step; [apply framed_log | apply framed_ret].
  - fr_step; [apply framed_deref | apply framed_createErrorPromise].
Qed.

Lemma framed_setPropertyValue `{Runtime} (propName : string) (v : Value) :
  framed 1 1 (setPropertyValue propName v).
Proof.
  unfold setPropertyValue. fr_step; [apply framed_getProperty|].
  destruct a as [r|]; [|apply framed_ret].
  fr_step; [apply framed_deref|].
  fr_step.
  { destruct (MiotProperty.getValueRange a) as [[|low [|high rest]]|]; try apply framed_ret.
    destruct (gt v (VNum high)).
    - fr_step; [apply framed_log | apply framed_ret].
    - destruct (lt v (VNum low)); [|apply framed_ret].
      fr_step; [apply framed_log | apply framed_ret]. }
  fr_step; [apply framed_deref|].
  destruct (negb (strict_eq (MiotProperty.getValue a1) a0)); [|apply framed_log].
  apply (framed_bind 1 1 0 0); [lia | lia | apply framed_setProperty | intros; apply framed_ret].
Qed.

Lemma framed_sendCommnd `{Texts} (prop : option Ref) (v : Value) :
  framed 1 0 (sendCommnd prop v).
Proof.
  unfold sendCommnd. apply framed_async.
  destruct prop as [r|]; [|apply framed_createErrorPromise].
  fr_step; [apply framed_this|].
  destruct (isConnected a).
  - fr_step; [apply framed_deref|].
    fr_step; [apply framed_log|].
    apply (framed_bind 1 0 0 0); [lia | lia | apply framed_miio_call; lia | intros answer].
    fr_step.
    + apply framed_promise_then. intros result.
      fr_step; [apply framed_log | apply framed_ret].
    + apply framed_promise_catch. intros err.
      fr_step; [apply framed_log | apply framed_ret].
  - fr_step; [apply framed_deref | apply framed_createErrorPromise].
Qed.

Lemma framed_requestProperty `{Texts} (prop : option Ref) : framed 1 1 (requestProperty prop).
Proof.
  unfold requestProperty. apply framed_async.
  destruct prop as [r|]; [|apply framed_createErrorPromise].
  fr_step; [apply framed_this|].
  destruct (isConnected a).
  - fr_step; [apply framed_deref|].
    destruct (MiotProperty.isReadable a0); [|apply framed_createErrorPromise].
    fr_step; [apply framed_log|].
    apply (framed_bind 1 0 0 1); [lia | lia | apply framed_miio_call; lia | intros answer].
    apply (framed_bind 0 1 0 0); [lia | lia | | intros ?].
    + apply framed_promise_then. intros result. unfold requestProperty_then.
      fr_step; [apply framed_log|].
      destruct (result !! 0) as [s|]; [|apply framed_throw].
      fr_step; [apply framed_updatePropertyValueFromDevice|].
      apply (framed_bind 0 1 0 0); [lia | lia | apply framed_emit; lia | intros; apply framed_ret].
    + apply framed_promise_catch. intros err.
      fr_step; [apply framed_log | apply framed_ret].
  - fr_step; [apply framed_deref | apply framed_createErrorPromise].
Qed.

Lemma framed_getAllPropNameValues : framed 0 0 getAllPropNameValues.
Proof.
  unfold getAllPropNameValues. fr_step; [apply framed_this|].
  fr_step.
  { apply framed_filterM. intros key.
    destruct (obj_get (properties a) key) as [r|]; [|apply framed_throw].
    fr_step; [apply framed_deref | apply framed_ret]. }
  apply framed_mapM. intros key.
  destruct (obj_get (properties a) key) as [r|]; [|apply framed_throw].
  fr_step; [apply framed_deref | apply framed_ret].
Qed.

(** ** Computations that never throw *)

Lemma returns_ret {A : Type} (a : A) : returns (ret a).
Proof. intros d. exists a. reflexivity. Qed.

Lemma returns_log (l : Level) (m : Msg) : returns (log l m).
Proof. intros d. exists tt. reflexivity. Qed.

Lemma returns_bind {A B : Type} (m : JS A) (k : A -> JS B) :
  returns m -> (forall a, returns (k a)) -> returns (bind m k).
Proof.
  intros Hm Hk d. unfold bind. destruct (Hm d) as [a Ha].
  destruct (m d) as [c d1]. simpl in Ha. subst c. apply Hk.
Qed.

Lemma returns_async {A : Type} (body : JS (Outcome A)) : returns (async body).
Proof.
  intros d. unfold async. destruct (body d) as [[p|err] d1]; eexists; reflexivity.
Qed.

Lemma returns_promise_then {A B : Type} (p : Outcome A) (h : A -> JS B) :
  returns (promise_then p h).
Proof.
  intros d. unfold promise_then. destruct p as [a|err]; [|eexists; reflexivity].
  destruct (h a d) as [[b|err] d1]; eexists; reflexivity.
Qed.

Lemma returns_promise_catch {A : Type} (p : Outcome A) (h : JsError -> JS A) :
  returns (promise_catch p h).
Proof.
  intros d. unfold promise_catch. destruct p as [a|err]; [eexists; reflexivity|].
  destruct (h err d) as [[b|err'] d1]; eexists; reflexivity.
Qed.

Lemma returns_checkDid : returns checkDid.
Proof.
  intros d. unfold checkDid, try_catch, bind, this.
  destruct (negb (truthy (getDeviceId d))); eexists; reflexivity.
Qed.

Lemma returns_doInitialPropertiesFetch `{DeviceClass} : returns doInitialPropertiesFetch.
Proof.
  unfold doInitialPropertiesFetch.
  apply returns_bind; [apply returns_log | intros _].
  apply returns_bind; [apply returns_async | intros fetched].
  apply returns_bind; [apply returns_promise_then | intros handled].
  apply returns_bind; [apply returns_promise_catch | intros _; apply returns_ret].
Qed.

Lemma returns_setup_after_id `{DeviceClass} : returns setup_after_id.
Proof.
  unfold setup_after_id.
  apply returns_bind; [apply returns_checkDid | intros _].
  apply returns_bind; [apply returns_log | intros _].
  apply returns_bind; [apply returns_ret | intros _].
  apply returns_bind; [apply returns_doInitialPropertiesFetch | intros _; apply returns_log].
Qed.

(** ** The setup *)

Lemma framed_checkDid : framed 0 0 checkDid.
Proof.
  unfold checkDid. apply (framed_try_catch 0 0 0 0); [lia | lia | | intros err; apply framed_log].
  fr_step; [apply framed_this|].
  destruct (negb (truthy (getDeviceId a))); [apply framed_throw | apply framed_ret].
Qed.

Lemma framed_doInitialPropertiesFetch `{DeviceClass} : framed 1 0 doInitialPropertiesFetch.
Proof.
  unfold doInitialPropertiesFetch.
  fr_step; [apply framed_log|].
  apply (framed_bind 1 0 0 0); [lia | lia | apply framed_requestAllProperties | intros fetched].
  fr_step.
  { apply framed_promise_then. intros _.
    fr_step; [apply framed_log|]. unfold gotInitialPropertiesFromDevice.
    fr_step; [apply framed_this|].
    fr_step; [|apply framed_ret].
    match goal with |- context [supportsUseTimeReporting ?x] =>
      destruct (supportsUseTimeReporting x); [apply framed_log | apply framed_ret] end. }
  fr_step; [|apply framed_ret].
  apply framed_promise_catch. intros err. apply framed_log.
Qed.

Lemma framed_setup_after_id `{DeviceClass} : framed 1 0 setup_after_id.
Proof.
  unfold setup_after_id.
  fr_step; [apply framed_checkDid|].
  fr_step; [apply framed_log|].
  fr_step; [apply framed_ret|].
  apply (framed_bind 1 0 0 0);
    [lia | lia | apply framed_doInitialPropertiesFetch | intros; apply framed_log].
Qed.

(** The steps of the setup up to the resolution of the device id, on a
    bound device, and the device they leave for the steps [k] that follow. *)
Lemma setup_head (k : JS unit) (d : Device) (h : MiioDevice) :
  miioDevice d = Some h ->
  exists d1 pre,
    (log info SettingUpDevice ;;
     fetchDeviceInfo ;;
     let! d0 := this in
     (if negb (truthy (deviceId d0)) then
        modify (set_deviceId (getDeviceId d0)) ;;
        log info (GotDidFromDevice (getDeviceId d0))
      else ret tt) ;;
     k) d = k d1
    /\ deviceId d1 = resolved_id d
    /\ model d1 = model d /\ name d1 = name d /\ miioDevice d1 = miioDevice d
    /\ capabilities d1 = capabilities d /\ properties d1 = properties d
    /\ store d1 = store d
    /\ trace d1 = trace d ++ ELog info SettingUpDevice :: pre
    /\ calls_of pre = [] /\ emitted pre = [] /\ destroyed pre = [].
Proof.
  intros Hcon.
  unfold fetchDeviceInfo, resolved_id, getDeviceId. js_unfold. rewrite Hcon.
  destruct (deviceInfo d) as [i|] eqn:Hinfo; simpl.
  - destruct (truthy (deviceId d)) eqn:Hid; simpl.
    + eexists _, []. split; [reflexivity|]. simpl. repeat split; try exact Hcon.
    + rewrite ?Hcon. eexists _, [_]. split; [reflexivity|]. simpl.
      rewrite <- app_assoc. repeat split; try exact Hcon.
  - rewrite ?Hcon. simpl.
    destruct (management_info h) as [i|err]; simpl;
      (destruct (truthy (deviceId d)) eqn:Hid; simpl;
       [ eexists _, [_; _; _]; split; [reflexivity|]; simpl;
         rewrite <- !app_assoc; repeat split; try exact Hcon
       | rewrite ?Hcon; eexists _, [_; _; _; _]; split; [reflexivity|]; simpl;
         rewrite <- !app_assoc; repeat split; try exact Hcon ]).
Qed.

Lemma setupDevice_resolves_id `{DeviceClass} (d : Device) (h : MiioDevice) :
  miioDevice d = Some h ->
  exists d1 pre,
    setupDevice d = setup_after_id d1
    /\ deviceId d1 = resolved_id d
    /\ model d1 = model d /\ name d1 = name d /\ miioDevice d1 = miioDevice d
    /\ capabilities d1 = capabilities d /\ properties d1 = properties d
    /\ store d1 = store d
    /\ trace d1 = trace d ++ ELog info SettingUpDevice :: pre
    /\ calls_of pre = [] /\ emitted pre = [] /\ destroyed pre = [].
Proof.
  intros Hcon. exact (setup_head setup_after_id d h Hcon).
Qed.

Lemma setupDevice_outcome `{DeviceClass} (d : Device) (h : MiioDevice) :
  miioDevice d = Some h ->
  let d' := snd (setupDevice d) in
  fst (setupDevice d) = Normal tt
  /\ deviceId d' = resolved_id d
  /\ model d' = model d /\ name d' = name d /\ miioDevice d' = Some h
  /\ capabilities d' = capabilities d /\ properties d' = properties d
  /\ length (store d') = length (store d)
  /\ exists ext,
       trace d' = trace d ++ ELog info SettingUpDevice :: ext
       /\ length (calls_of ext) <= 1 /\ emitted ext = [] /\ destroyed ext = [].
Proof.
  intros Hcon d'. subst d'.
  destruct (setupDevice_resolves_id d h Hcon)
    as (d1 & pre & Hrun & Hid & Hmodel & Hname & Hmiio & Hcap & Hprops & Hstore
        & Htrace & Hcalls & Hemit & Hdestr).
  rewrite Hrun.
  destruct (returns_setup_after_id d1) as [[] Hret].
  destruct (framed_setup_after_id d1)
    as [(S1 & S2 & S3 & S4 & _ & S6 & S7 & S8) (ext & T & C & E & D)].
  split; [exact Hret|].
  repeat split; try congruence.
  exists (pre ++ ext). rewrite T, Htrace, <- app_assoc. simpl.
  rewrite calls_of_app, emitted_app, destroyed_app, Hcalls, Hemit, Hdestr. simpl.
  repeat split; [destruct (isConnected d1); lia | | exact D].
  destruct (emitted ext); [reflexivity | simpl in E; lia].
Qed.

Lemma well_formed_same_registry (d d' : Device) :
  properties d' = properties d ->
  length (store d') = length (store d) ->
  well_formed d -> well_formed d'.
Proof.
  intros Hprops Hlen (Hndk & Hndr & Hlive). unfold well_formed. rewrite Hprops.
  split; [exact Hndk|]. split; [exact Hndr|].
  intros k r Hin. destruct (Hlive k r Hin) as [p Hp].
  apply lookup_lt_is_Some. rewrite Hlen. eapply lookup_lt_Some. exact Hp.
Qed.

Lemma well_formed_framed {A : Type} (c e : nat) (m : JS A) (d : Device) :
  framed c e m -> well_formed d -> well_formed (snd (m d)).
Proof.
  intros Hm. destruct (Hm d) as [(_ & _ & _ & _ & _ & _ & Hprops & Hlen) _].
  apply well_formed_same_registry; assumption.
Qed.

Lemma no_call_when_disconnected {A : Type} (c e : nat) (m : JS A) (d : Device) :
  framed c e m -> isConnected d = false ->
  calls_of (trace (snd (m d))) = calls_of (trace d).
Proof.
  intros Hm Hdis. destruct (Hm d) as [_ (ext & T & C & _)].
  rewrite Hdis in C. rewrite T, calls_of_app.
  destruct (calls_of ext); [apply app_nil_r | simpl in C; lia].
Qed.

Lemma substring_all (s : string) : String.substring 0 (String.length s) s = s.
Proof. induction s as [|c s IH]; simpl; [reflexivity|]. rewrite IH. reflexivity. Qed.

Lemma prefix_append (p s : string) : String.prefix p (p ++ s) = true.
Proof.
  induction p as [|c p IH]; simpl.
  - destruct s; reflexivity.
  - destruct (Ascii.ascii_dec c c); [exact IH | contradiction].
Qed.

Lemma length_append (p s : string) :
  String.length (p ++ s) = String.length p + String.length s.
Proof. induction p as [|c p IH]; simpl; [reflexivity|]. rewrite IH. reflexivity. Qed.

Lemma substring_append (p s : string) (n : nat) :
  String.substring (String.length p) n (p ++ s) = String.substring 0 n s.
Proof. induction p as [|c p IH]; simpl; [reflexivity | exact IH]. Qed.

Lemma strip_miio_prefixed (s : string) : strip_miio ("miio:" ++ s) = s.
Proof.
  unfold strip_miio. rewrite prefix_append, length_append.
  change 5 with (String.length "miio:").
  replace (String.length "miio:" + String.length s - String.length "miio:")
    with (String.length s) by lia.
  rewrite substring_append. apply substring_all.
Qed.

Lemma strip_miio_other (s : string) : String.prefix "miio:" s = false -> strip_miio s = s.
Proof. intros Hp. unfold strip_miio. rewrite Hp. reflexivity. Qed.

(** ** Attaching and detaching, in general *)

(** X1. [updateMiioDevice] returns normally from every device and with every
    transport, and leaves the device bound to the new handle.  The registry,
    the capabilities and the property objects' number are as before.  The
    device id is the configured one if there is one; on an unbound device
    without one it becomes the id of the handle.  At most one transport call
    is made (the initial fetch), none when a handle was bound already; no
    notification is emitted and no handle is destroyed, the replaced one
    included. *)
Theorem updateMiioDevice_binds_the_handle `{DeviceClass} (d : Device) (h : MiioDevice) :
  let d' := snd (updateMiioDevice h d) in
  fst (updateMiioDevice h d) = Normal tt
  /\ miioDevice d' = Some h
  /\ properties d' = properties d
  /\ capabilities d' = capabilities d
  /\ length (store d') = length (store d)
  /\ deviceId d'
     = (if isConnected d || truthy (deviceId d) then deviceId d
        else VStr (strip_miio (id h)))
  /\ exists ext,
       trace d' = trace d ++ ext
       /\ length (calls_of ext) <= (if isConnected d then 0 else 1)
       /\ emitted ext = []
       /\ destroyed ext = [].
Proof.
  intros d'. subst d'. unfold isConnected.
  destruct (miioDevice d) as [old|] eqn:Hbound.
  - rewrite (updateMiioDevice_bound d h old Hbound). simpl.
    repeat split. exists [ELog info Reconnected]. repeat split. simpl. lia.
  - rewrite (updateMiioDevice_unbound d h Hbound).
    destruct (setupDevice_outcome (set_miioDevice (Some h) d) h eq_refl)
      as (Hret & Hid & _ & _ & Hmiio & Hcap & Hprops & Hlen & ext & T & C & E & D).
    repeat split; try assumption.
    exists (ELog info SettingUpDevice :: ext). repeat split; assumption.
Qed.

(** X2. [disconnectAndDestroyMiioDevice] destroys the handle that is bound,
    if there is one, and leaves the device unbound; nothing else changes,
    and a second call changes nothing at all.  Until the next attach the
    device id is the stored one, [pollProperties] is rejected, and no method
    of the protocol makes a transport call. *)
Theorem disconnectAndDestroyMiioDevice_detaches `{Runtime} `{Texts} (d : Device)
    (prop : option Ref) (propName : string) (v : Value) :
  let d' := snd (disconnectAndDestroyMiioDevice d) in
  let quiet {A : Type} (m : JS A) := calls_of (trace (snd (m d'))) = calls_of (trace d') in
  d' = set_miioDevice None
         (set_trace (trace d ++ match miioDevice d with
                                | Some h => [EDestroy (id h)]
                                | None => []
                                end) d)
  /\ disconnectAndDestroyMiioDevice d' = (Normal tt, d')
  /\ getDeviceId d' = deviceId d
  /\ pollProperties d' = (Normal (Rejected (Error DeviceNotConnected)), d')
  /\ quiet requestAllProperties
  /\ quiet (requestProperty prop)
  /\ quiet (setProperty prop v)
  /\ quiet (setPropertyValue propName v)
  /\ quiet (sendCommnd prop v).
Proof.
  intros d' quiet.
  assert (Hd' : d' = set_miioDevice None
                       (set_trace (trace d ++ match miioDevice d with
                                              | Some h => [EDestroy (id h)]
                                              | None => []
                                              end) d)).
  { subst d'. unfold disconnectAndDestroyMiioDevice. js_unfold.
    destruct (miioDevice d); simpl; [reflexivity|].
    rewrite app_nil_r. destruct d; reflexivity. }
  assert (Hdis : isConnected d' = false) by (rewrite Hd'; reflexivity).
  split; [exact Hd'|].
  split.
  { unfold disconnectAndDestroyMiioDevice. js_unfold.
    rewrite Hd'. reflexivity. }
  split; [rewrite Hd'; reflexivity|].
  split.
  { unfold pollProperties, async, bind, this. rewrite Hdis. reflexivity. }
  subst quiet. simpl.
  repeat split.
  - exact (no_call_when_disconnected 1 0 _ d' framed_requestAllProperties Hdis).
  - exact (no_call_when_disconnected 1 1 _ d' (framed_requestProperty prop) Hdis).
  - exact (no_call_when_disconnected 1 1 _ d' (framed_setProperty prop v) Hdis).
  - exact (no_call_when_disconnected 1 1 _ d' (framed_setPropertyValue propName v) Hdis).
  - exact (no_call_when_disconnected 1 0 _ d' (framed_sendCommnd prop v) Hdis).
Qed.

(** ** The batched read, whatever the transport answers *)

(** The batched read of a connected, well-formed device: the one request
    that is sent, and what follows from the answer. *)
Lemma requestAllProperties_run (d : Device) (h : MiioDevice) :
  well_formed d ->
  miioDevice d = Some h ->
  let sent := set_trace (trace d ++ [ECall COMMAND_GET (read_requests d)]) d in
  requestAllProperties d
  = match call h (calls_of (trace d)) (COMMAND_GET, read_requests d) with
    | Rejected e => (Normal (Rejected e), sent)
    | Fulfilled result =>
        match requestAllProperties_loop (obj_keys (readable_entries d)) 0 result [] sent with
        | (Normal obj, d') => (Normal (Fulfilled (RObject obj)), d')
        | (Throw e, d') => (Normal (Rejected e), d')
        end
    end.
Proof.
  intros Hwf Hcon sent.
  assert (Hval : forall k r, (k, r) ∈ readable_entries d ->
                   obj_get (properties d) k = Some r /\ is_Some (store d !! r)).
  { intros k r Hin.
    destruct (readable_entries_registered d k r Hwf Hin) as [Hreg [p [Hp _]]].
    split; [exact Hreg | exists p; exact Hp]. }
  unfold requestAllProperties, async. unfold bind at 1, this at 1.
  unfold isConnected. rewrite Hcon.
  unfold bind at 1. rewrite (getAllReadableProps_well_formed d Hwf).
  unfold bind at 1. rewrite (read_requests_mapM d (readable_entries d) Hval).
  fold (read_requests d).
  unfold miio_call. js_unfold. rewrite Hcon. simpl.
  destruct (call h (calls_of (trace d)) (COMMAND_GET, read_requests d)) as [result|e];
    [|reflexivity].
  unfold promise_then, requestAllProperties_then. js_unfold. fold sent.
  destruct (requestAllProperties_loop (obj_keys (readable_entries d)) 0 result [] sent)
    as [[obj|e] d']; reflexivity.
Qed.

(** The loop looks a key up only at the indices of the slots it is given. *)
Lemma requestAllProperties_loop_keys (keys keys' : list string) (result : list Slot) :
  forall (i : nat) (obj : list (string * Value)) (d : Device),
    (forall j, i <= j < i + length result -> keys !! j = keys' !! j) ->
    requestAllProperties_loop keys i result obj d
    = requestAllProperties_loop keys' i result obj d.
Proof.
  induction result as [|s result IH]; intros i obj d Hsame; simpl; [reflexivity|].
  unfold bind. rewrite (Hsame i) by (simpl; lia).
  destruct (updatePropertyValueFromDevice obj (keys' !! i) s d) as [[obj'|e] d1];
    [|reflexivity].
  apply IH. intros j Hj. apply Hsame. simpl. lia.
Qed.

(** The loop over a response in two parts. *)
Lemma requestAllProperties_loop_app (keys : list string) (first rest : list Slot) :
  forall (i : nat) (obj : list (string * Value)) (d : Device),
    requestAllProperties_loop keys i (first ++ rest) obj d
    = match requestAllProperties_loop keys i first obj d with
      | (Normal obj', d') =>
          requestAllProperties_loop keys (i + length first) rest obj' d'
      | (Throw e, d') => (Throw e, d')
      end.
Proof.
  induction first as [|s first IH]; intros i obj d; simpl.
  - unfold ret. rewrite Nat.add_0_r. reflexivity.
  - unfold bind.
    destruct (updatePropertyValueFromDevice obj (keys !! i) s d) as [[obj'|e] d1];
      [|reflexivity].
    rewrite IH. replace (S i + length first) with (i + S (length first)) by lia.
    reflexivity.
Qed.

Lemma NoDup_map_take {A B : Type} (g : A -> B) (n : nat) (l : list A) :
  NoDup (map g l) -> NoDup (map g (take n l)).
Proof.
  intros Hnd. rewrite <- (take_drop n l) in Hnd.
  rewrite map_app in Hnd. apply NoDup_app in Hnd. tauto.
Qed.

Lemma map_take {A B : Type} (g : A -> B) (n : nat) (l : list A) :
  map g (take n l) = take n (map g l).
Proof.
  revert n. induction l as [|a l IH]; intros [|n]; simpl; try reflexivity.
  rewrite IH. reflexivity.
Qed.

Lemma lookup_map {A B : Type} (g : A -> B) (l : list A) (i : nat) :
  map g l !! i = g <$> l !! i.
Proof.
  revert i. induction l as [|a l IH]; intros [|i]; simpl; try reflexivity. apply IH.
Qed.

Lemma not_in_map_take {A B : Type} (g : A -> B) (n i : nat) (l : list A) (x : A) :
  NoDup (map g l) -> l !! i = Some x -> n <= i -> g x ∉ map g (take n l).
Proof.
  intros Hnd Hi Hn Hin. rewrite map_take in Hin.
  apply elem_of_take in Hin as [j [Hj Hlt]].
  assert (Hix : map g l !! i = Some (g x)) by (rewrite lookup_map, Hi; reflexivity).
  pose proof (NoDup_lookup _ _ _ _ Hnd Hix Hj). lia.
Qed.

Lemma well_formed_readable_entries (d : Device) :
  well_formed d ->
  NoDup (map fst (readable_entries d))
  /\ NoDup (map snd (readable_entries d))
  /\ (forall k r, (k, r) ∈ readable_entries d ->
        obj_get (properties d) k = Some r /\ is_Some (store d !! r)).
Proof.
  intros Hwf. pose proof Hwf as (Hndk & Hndr & Hlive).
  split; [apply NoDup_map_filter, Hndk|].
  split; [apply NoDup_map_filter, Hndr|].
  intros k r Hin.
  destruct (readable_entries_registered d k r Hwf Hin) as [Hreg [p [Hp _]]].
  split; [exact Hreg | exists p; exact Hp].
Qed.

(** X3. A batched read whose transport call fails is rejected with the
    error of the transport, which is not caught here; the one request was
    sent, and no cached value has changed. *)
Theorem requestAllProperties_transport_failure (d : Device) (h : MiioDevice) (e : JsError) :
  well_formed d ->
  miioDevice d = Some h ->
  call h (calls_of (trace d)) (COMMAND_GET, read_requests d) = Rejected e ->
  requestAllProperties d
  = (Normal (Rejected e), set_trace (trace d ++ [ECall COMMAND_GET (read_requests d)]) d)
  /\ pollProperties d
     = (Normal (Rejected e), set_trace (trace d ++ [ECall COMMAND_GET (read_requests d)]) d)
  /\ store (snd (requestAllProperties d)) = store d.
Proof.
  intros Hwf Hcon Hfail.
  assert (Heq : requestAllProperties d
                = (Normal (Rejected e),
                   set_trace (trace d ++ [ECall COMMAND_GET (read_requests d)]) d)).
  { rewrite (requestAllProperties_run d h Hwf Hcon). simpl. rewrite Hfail. reflexivity. }
  split; [exact Heq|]. split; [|rewrite Heq; reflexivity].
  unfold pollProperties, async, bind, this, isConnected. rewrite Hcon, Heq. reflexivity.
Qed.

(** X4. A response with fewer slots than there are readable properties is
    applied to the first properties only: slot [i] decides the cache and the
    record of the [i]-th readable property as in a full response, the
    readable properties that got no slot keep their cache and are not
    recorded, and the promise is fulfilled. *)
Theorem requestAllProperties_short_response (d : Device) (h : MiioDevice)
    (result : list Slot) :
  well_formed d ->
  miioDevice d = Some h ->
  call h (calls_of (trace d)) (COMMAND_GET, read_requests d) = Fulfilled result ->
  length result <= length (readable_entries d) ->
  exists obj d',
    requestAllProperties d = (Normal (Fulfilled (RObject obj)), d')
    /\ (forall i k r s p,
          readable_entries d !! i = Some (k, r) -> result !! i = Some s ->
          store d !! r = Some p ->
          if strict_eq (code s) (VNum 0)
          then store d' !! r = Some (MiotProperty.setValue p (slot_value s))
               /\ obj_get obj k = Some (slot_value s)
          else store d' !! r = Some p /\ obj_get obj k = None)
    /\ (forall i k r,
          readable_entries d !! i = Some (k, r) -> length result <= i ->
          store d' !! r = store d !! r /\ obj_get obj k = None).
Proof.
  intros Hwf Hcon Hanswer Hlen.
  destruct (well_formed_readable_entries d Hwf) as (Hndk & Hndr & Hval).
  set (n := length result).
  set (sent := set_trace (trace d ++ [ECall COMMAND_GET (read_requests d)]) d).
  assert (Hlen' : length result = length (take n (readable_entries d)))
    by (rewrite length_take; unfold n; lia).
  destruct (requestAllProperties_loop_spec (take n (readable_entries d)) result
              (obj_keys (take n (readable_entries d))) 0 [] sent Hlen' eq_refl
              (NoDup_map_take fst n _ Hndk) (NoDup_map_take snd n _ Hndr))
    as (obj & d' & Hrun & _ & _ & _ & _ & _ & Hother & Hobj & Hslots).
  { intros k r Hin. apply Hval.
    apply elem_of_take in Hin as [j [Hj _]]. eapply list_elem_of_lookup_2. exact Hj. }
  exists obj, d'.
  split; [|split].
  - rewrite (requestAllProperties_run d h Hwf Hcon). simpl. rewrite Hanswer.
    fold sent.
    rewrite (requestAllProperties_loop_keys (obj_keys (readable_entries d))
               (obj_keys (take n (readable_entries d)))).
    + rewrite Hrun. reflexivity.
    + intros j Hj. unfold obj_keys. rewrite map_take.
      symmetry. apply lookup_take_lt. fold n in Hj. lia.
  - intros i k r s p Hi Hs Hp.
    assert (Hlt : i < n) by (eapply lookup_lt_Some; exact Hs).
    assert (Hi' : take n (readable_entries d) !! i = Some (k, r))
      by (rewrite lookup_take_lt by exact Hlt; exact Hi).
    specialize (Hslots i k r s p Hi' Hs Hp).
    destruct (strict_eq (code s) (VNum 0)); exact Hslots.
  - intros i k r Hi Hge. split.
    + rewrite (Hother r); [reflexivity|].
      apply (not_in_map_take snd n i _ (k, r) Hndr Hi Hge).
    + rewrite (Hobj k); [reflexivity|].
      apply (not_in_map_take fst n i _ (k, r) Hndk Hi Hge).
Qed.

(** X5. A response with more slots than there are readable properties:
    the slots that have a property are applied as usual; the first slot
    beyond them has no key, and when its code is 0 (and no property is named
    [undefined]) reading its property throws.  The promise is then rejected
    with a [TypeError], after the caches have been updated from the slots
    before it. *)
Theorem requestAllProperties_long_response (d : Device) (h : MiioDevice)
    (slots more : list Slot) (extra : Slot) :
  well_formed d ->
  miioDevice d = Some h ->
  call h (calls_of (trace d)) (COMMAND_GET, read_requests d)
  = Fulfilled (slots ++ extra :: more) ->
  length slots = length (readable_entries d) ->
  strict_eq (code extra) (VNum 0) = true ->
  hasProperty d "undefined" = false ->
  exists d',
    requestAllProperties d = (Normal (Rejected TypeError), d')
    /\ (forall i k r s p,
          readable_entries d !! i = Some (k, r) -> slots !! i = Some s ->
          store d !! r = Some p ->
          store d' !! r
          = Some (if strict_eq (code s) (VNum 0)
                  then MiotProperty.setValue p (slot_value s) else p)).
Proof.
  intros Hwf Hcon Hanswer Hlen Hcode Hundef.
  destruct (well_formed_readable_entries d Hwf) as (Hndk & Hndr & Hval).
  set (sent := set_trace (trace d ++ [ECall COMMAND_GET (read_requests d)]) d).
  destruct (requestAllProperties_loop_spec (readable_entries d) slots
              (obj_keys (readable_entries d)) 0 [] sent Hlen eq_refl Hndk Hndr Hval)
    as (obj & d1 & Hrun & Hprops & _ & _ & _ & _ & _ & _ & Hslots).
  assert (Habs : obj_get (properties d1) "undefined" = None).
  { rewrite Hprops. unfold hasProperty in Hundef. simpl.
    destruct (obj_get (properties d) "undefined"); [discriminate | reflexivity]. }
  exists (set_trace (trace d1 ++ [ELog warn (PropertyNotFound "undefined")]) d1).
  split.
  - rewrite (requestAllProperties_run d h Hwf Hcon). simpl. rewrite Hanswer.
    fold sent. rewrite requestAllProperties_loop_app, Hrun. simpl.
    unfold bind at 1.
    assert (Hkey : obj_keys (readable_entries d) !! length slots = None).
    { apply lookup_ge_None. unfold obj_keys. rewrite length_map. lia. }
    rewrite Hkey. unfold updatePropertyValueFromDevice. rewrite Hcode. simpl.
    unfold bind at 1. rewrite (getProperty_absent d1 "undefined" Habs). reflexivity.
  - intros i k r s p Hi Hs Hp. simpl.
    specialize (Hslots i k r s p Hi Hs Hp).
    destruct (strict_eq (code s) (VNum 0)); apply Hslots.
Qed.

(** ** What the methods of the protocol leave alone *)

Lemma framed_getPropertyValue (propName : string) : framed 0 0 (getPropertyValue propName).
Proof.
  unfold getPropertyValue. fr_step; [apply framed_getProperty|].
  destruct a as [r|]; [|apply framed_ret].
  fr_step; [apply framed_deref | apply framed_ret].
Qed.

Lemma framed_getSafePropertyValue (propName : string) :
  framed 0 0 (getSafePropertyValue propName).
Proof.
  unfold getSafePropertyValue. fr_step; [apply framed_getProperty|].
  destruct a as [r|]; [|apply framed_ret].
  fr_step; [apply framed_deref | apply framed_ret].
Qed.

Lemma framed_getPropertyValueRange (propName : string) :
  framed 0 0 (getPropertyValueRange propName).
Proof.
  unfold getPropertyValueRange. fr_step; [apply framed_this|].
  destruct (hasProperty a propName); [|apply framed_ret].
  fr_step; [apply framed_getProperty|].
  destruct a0 as [r|]; [|apply framed_throw].
  fr_step; [apply framed_deref|].
  destruct (MiotProperty.hasValueRange a0); apply framed_ret.
Qed.

Lemma framed_getPropertyValueList (propName : string) :
  framed 0 0 (getPropertyValueList propName).
Proof.
  unfold getPropertyValueList. fr_step; [apply framed_this|].
  destruct (hasProperty a propName); [|apply framed_ret].
  fr_step; [apply framed_getProperty|].
  destruct a0 as [r|]; [|apply framed_throw].
  fr_step; [apply framed_deref|].
  destruct (MiotProperty.hasValueList a0); apply framed_ret.
Qed.

(** X6. No read changes the device object: the registry, the capabilities,
    the handle, the device id, the model and the name are as before and no
    property object is added or removed, from whatever device and with
    whatever answer of the transport.  The trace only grows.  The batched
    read, the poll and the single read make at most one transport call, and
    none on a device that is not connected; the snapshot and the four
    lookups make none.  Only the single read can emit a notification, and at
    most one: the batched read and the poll emit none. *)
Theorem reads_keep_the_device `{Texts} (prop : option Ref) (propName : string) :
  framed 1 0 requestAllProperties
  /\ framed 1 0 pollProperties
  /\ framed 1 1 (requestProperty prop)
  /\ framed 0 0 getAllPropNameValues
  /\ framed 0 0 (getPropertyValue propName)
  /\ framed 0 0 (getSafePropertyValue propName)
  /\ framed 0 0 (getPropertyValueRange propName)
  /\ framed 0 0 (getPropertyValueList propName).
Proof.
  split; [apply framed_requestAllProperties|].
  split; [apply framed_pollProperties|].
  split; [apply framed_requestProperty|].
  split; [apply framed_getAllPropNameValues|].
  split; [apply framed_getPropertyValue|].
  split; [apply framed_getSafePropertyValue|].
  split; [apply framed_getPropertyValueRange|].
  apply framed_getPropertyValueList.
Qed.

(** X7. No write changes the device object either: whatever the property,
    the value and the transport, [setProperty], [setPropertyValue] and
    [sendCommnd] leave the registry, the capabilities, the handle, the device
    id, the model and the name as they were, add or remove no property
    object, and only add to the trace.  Each makes at most one transport
    call, and none on a device that is not connected; the two writes emit at
    most one notification, [sendCommnd] emits none. *)
Theorem writes_keep_the_device `{Runtime} `{Texts} (prop : option Ref)
    (propName : string) (v : Value) :
  framed 1 1 (setProperty prop v)
  /\ framed 1 1 (setPropertyValue propName v)
  /\ framed 1 0 (sendCommnd prop v).
Proof.
  split; [apply framed_setProperty|].
  split; [apply framed_setPropertyValue|].
  apply framed_sendCommnd.
Qed.

(** ** The registry invariant, throughout *)

Lemma constructor_with_handle `{DeviceClass} (h : MiioDevice) (model deviceId name : Value) :
  constructor (Some h) model deviceId name
  = updateMiioDevice h (snd (constructor None model deviceId name)).
Proof.
  unfold constructor, initDevice. js_unfold. destruct (truthy model); reflexivity.
Qed.

Lemma updateMiioDevice_well_formed `{DeviceClass} (d : Device) (h : MiioDevice) :
  well_formed d -> well_formed (snd (updateMiioDevice h d)).
Proof.
  intros Hwf. destruct (miioDevice d) as [old|] eqn:Hbound.
  - rewrite (updateMiioDevice_bound d h old Hbound). exact Hwf.
  - rewrite (updateMiioDevice_unbound d h Hbound).
    destruct (setupDevice_outcome (set_miioDevice (Some h) d) h eq_refl)
      as (_ & _ & _ & _ & _ & _ & Hprops & Hlen & _).
    apply (well_formed_same_registry d); assumption.
Qed.

Lemma unbound_fan_well_formed : well_formed Scenario.unbound_fan.
Proof.
  split; [|split].
  - change (NoDup ["power"; "fan_level"; "buzzer"]).
    repeat (apply NoDup_cons_2;
            [rewrite ?not_elem_of_cons; repeat split;
             try discriminate; apply not_elem_of_nil|]).
    apply NoDup_nil_2.
  - change (NoDup [0; 1; 2]).
    repeat (apply NoDup_cons_2;
            [rewrite ?not_elem_of_cons; repeat split;
             try discriminate; apply not_elem_of_nil|]).
    apply NoDup_nil_2.
  - intros k r Hin.
    change ((k, r) ∈ [("power", 0); ("fan_level", 1); ("buzzer", 2)]) in Hin.
    apply lookup_lt_is_Some. change (r < 3).
    repeat (apply elem_of_cons in Hin as [Hin|Hin]; [injection Hin as _ ->; lia|]).
    apply elem_of_nil in Hin. contradiction.
Qed.

Lemma fan_on_well_formed (h : MiioDevice) : well_formed (Scenario.fan_on h).
Proof.
  apply (updateMiioDevice_well_formed (H := plain_device)), unbound_fan_well_formed.
Qed.

(** X8. The registry is well formed in every device the methods can reach:
    its keys are distinct, each key has a property object of its own, and
    every reference is to an object of the store.  This holds after the
    construction, with or without a transport, and every method keeps it:
    the registration, the attach and the detach, the reads and the
    writes. *)
Theorem registry_stays_well_formed `{DeviceClass} `{Runtime} `{Texts} (d : Device)
    (miio : option MiioDevice) (h : MiioDevice) (model deviceId name : Value)
    (pname : option string) (siid piid : option Z)
    (format : MiotProperty.Format) (access : MiotProperty.Access)
    (unit : option string) (valueRange : option (list Z))
    (valueList : option (list MiotProperty.ValueListEntry))
    (cname propName : string) (prop : option Ref) (v : Value) :
  well_formed (snd (constructor miio model deviceId name))
  /\ (well_formed d ->
      well_formed (snd (addProperty pname siid piid format access unit valueRange valueList d))
      /\ well_formed (snd (addCapability cname v d))
      /\ well_formed (snd (updateMiioDevice h d))
      /\ well_formed (snd (disconnectAndDestroyMiioDevice d))
      /\ well_formed (snd (requestAllProperties d))
      /\ well_formed (snd (pollProperties d))
      /\ well_formed (snd (requestProperty prop d))
      /\ well_formed (snd (setProperty prop v d))
      /\ well_formed (snd (setPropertyValue propName v d))
      /\ well_formed (snd (sendCommnd prop v d))).
Proof.
  split.
  - destruct miio as [h0|].
    + rewrite constructor_with_handle.
      apply updateMiioDevice_well_formed, constructor_well_formed.
    + apply constructor_well_formed.
  - intros Hwf.
    split; [apply addProperty_well_formed, Hwf|].
    split; [exact Hwf|].
    split; [apply updateMiioDevice_well_formed, Hwf|].
    split.
    { unfold disconnectAndDestroyMiioDevice. js_unfold.
      destruct (miioDevice d); exact Hwf. }
    split; [exact (well_formed_framed 1 0 _ d framed_requestAllProperties Hwf)|].
    split; [exact (well_formed_framed 1 0 _ d framed_pollProperties Hwf)|].
    split; [exact (well_formed_framed 1 1 _ d (framed_requestProperty prop) Hwf)|].
    split; [exact (well_formed_framed 1 1 _ d (framed_setProperty prop v) Hwf)|].
    split; [exact (well_formed_framed 1 1 _ d (framed_setPropertyValue propName v) Hwf)|].
    exact (well_formed_framed 1 0 _ d (framed_sendCommnd prop v) Hwf).
Qed.

(** ** Registration, in general *)



(** X10. [addProperty] takes an empty name, a service id of 0 and a property
    id of 0 for missing ones: the call returns undefined after one warning in
    the log, and the registry and the property objects are as before. *)
Theorem addProperty_rejects_empty_name_and_zero_ids (d : Device)
    (pname : option string) (siid piid : option Z)
    (format : MiotProperty.Format) (access : MiotProperty.Access)
    (unit : option string) (valueRange : option (list Z))
    (valueList : option (list MiotProperty.ValueListEntry)) :
  pname = Some "" \/ siid = Some 0%Z \/ piid = Some 0%Z ->
  let added := addProperty pname siid piid format access unit valueRange valueList d in
  (exists m, added = (Normal None, set_trace (trace d ++ [ELog warn m]) d))
  /\ properties (snd added) = properties d
  /\ store (snd added) = store d
  /\ (forall propName, hasProperty (snd added) propName = hasProperty d propName).
Proof.
  intros Hfalsy added.
  assert (Hgen : exists m, added = (Normal None, set_trace (trace d ++ [ELog warn m]) d)).
  { subst added. unfold addProperty.
    destruct pname as [n|]; [|eexists; reflexivity].
    destruct (String.eqb n "") eqn:En; [eexists; reflexivity|].
    destruct siid as [s|], piid as [p|]; try (eexists; reflexivity).
    destruct (Z.eqb s 0 || Z.eqb p 0) eqn:Ez; [eexists; reflexivity|].
    exfalso. apply orb_false_elim in Ez as [Es Ep].
    destruct Hfalsy as [Hn|[Hs|Hp]].
    - injection Hn as ->. discriminate En.
    - injection Hs as ->. discriminate Es.
    - injection Hp as ->. discriminate Ep. }
  split; [exact Hgen|].
  destruct Hgen as [m ->]. simpl. repeat split.
Qed.

(** ** Writes through [setPropertyValue], in general *)

Lemma clamped_unadjusted `{Runtime} (p : MiotProperty.t) (v : Value) :
  unadjusted p v = true -> clamped p v = v.
Proof.
  unfold unadjusted, clamped.
  destruct (MiotProperty.valueRange p) as [[|low [|high rest]]|]; try reflexivity.
  intros Hun. apply andb_prop in Hun as [Hgt Hlt].
  apply negb_true_iff in Hgt. apply negb_true_iff in Hlt. rewrite Hgt, Hlt. reflexivity.
Qed.

Lemma unadjusted_undefined `{Runtime} (p : MiotProperty.t) : unadjusted p VUndefined = true.
Proof.
  unfold unadjusted.
  destruct (MiotProperty.valueRange p) as [[|low [|high rest]]|]; reflexivity.
Qed.

Lemma unadjusted_within `{Runtime} (p : MiotProperty.t) (low high x : Z) (rest : list Z) :
  MiotProperty.valueRange p = Some (low :: high :: rest) ->
  (low <= x <= high)%Z -> unadjusted p (VNum x) = true.
Proof.
  intros Hr Hx. unfold unadjusted. rewrite Hr. unfold gt, lt. simpl.
  apply andb_true_intro. split; apply negb_true_iff, Z.ltb_ge; lia.
Qed.


(** X12. [setPropertyValue] passes on, as it is, every value that the
    comparisons with the range do not catch: any value when the property has
    no range or a range of fewer than two entries, a number within the range,
    and also undefined, which compares false with every bound.  The write
    request then carries the value itself (it is sent when the device is
    connected and the value is not the cached one), and the cache afterwards
    holds what it held or the value. *)
Theorem setPropertyValue_unadjusted `{Runtime} (d : Device) (propName : string)
    (r : Ref) (p : MiotProperty.t) (v : Value) :
  obj_get (properties d) propName = Some r ->
  store d !! r = Some p ->
  let sends (w : Value) :=
    let d' := snd (setPropertyValue propName w d) in
    calls_of (trace d')
    = calls_of (trace d)
      ++ (if isConnected d && negb (strict_eq (MiotProperty.getValue p) w)
          then [write_call p d w] else [])
    /\ (store d' = store d \/ store d' = <[r := MiotProperty.setValue p w]> (store d)) in
  (unadjusted p v = true -> sends v)
  /\ sends VUndefined
  /\ (forall low high rest x,
        MiotProperty.valueRange p = Some (low :: high :: rest) ->
        (low <= x <= high)%Z -> sends (VNum x)).
Proof.
  intros Hreg Hlive sends.
  assert (Hsends : forall w, unadjusted p w = true -> sends w).
  { intros w Hun. subst sends. simpl.
    pose proof (setPropertyValue_footprint d propName r p w Hreg Hlive) as Hfoot.
    simpl in Hfoot. rewrite (clamped_unadjusted p w Hun) in Hfoot. exact Hfoot. }
  split; [apply Hsends|].
  split; [apply Hsends, unadjusted_undefined|].
  intros low high rest x Hr Hx. eapply Hsends, unadjusted_within; eassumption.
Qed.

(** ** Single writes, commands and single reads, in general *)

(** X13. [setProperty] never rejects and never throws.  With a missing
    property, or on a device that is not connected, it logs the error and
    resolves with undefined: no transport call is made, no cached value
    changes and no notification is emitted.  On a connected device the
    promise resolves with undefined as well, whether the transport call
    succeeds or fails. *)
Theorem setProperty_always_resolves (d : Device) (r : Ref) (p : MiotProperty.t) (v : Value) :
  store d !! r = Some p ->
  fst (setProperty (Some r) v d) = Normal (Fulfilled RUndefined)
  /\ setProperty None v d
     = (Normal (Fulfilled RUndefined),
        set_trace (trace d ++ [ELog debug (ErrorObject (Error MissingPropertyCannotSet))]) d)
  /\ (isConnected d = false ->
      setProperty (Some r) v d
      = (Normal (Fulfilled RUndefined),
         set_trace (trace d ++ [ELog debug (ErrorObject
                       (Error (CannotSetNotConnected (MiotProperty.getName p) v)))]) d)).
Proof.
  intros Hlive.
  split; [|split; [reflexivity|]].
  - destruct (miioDevice d) as [h|] eqn:Hcon.
    + rewrite (setProperty_connected d h r p v Hcon Hlive).
      destruct (call h (calls_of (trace d)) (write_call p d v)); reflexivity.
    + rewrite (setProperty_disconnected d r p v Hcon Hlive). reflexivity.
  - intros Hdis. apply setProperty_disconnected; [|exact Hlive].
    unfold isConnected in Hdis. destruct (miioDevice d); [discriminate | reflexivity].
Qed.

Lemma sendCommnd_connected `{Texts} (d : Device) (h : MiioDevice) (r : Ref)
    (p : MiotProperty.t) (v : Value) :
  miioDevice d = Some h ->
  store d !! r = Some p ->
  let cmdDef := MiotProperty.getWriteProtocolObjForDid p (deviceId d) v in
  sendCommnd (Some r) v d
  = (Normal (Fulfilled RUndefined),
     set_trace (trace d ++ [ELog deepDebug (line "Send command! RAW");
                            ECall COMMAND_SET [cmdDef];
                            ELog debug
                              (match call h (calls_of (trace d)) (write_call p d v) with
                               | Fulfilled _ => line "Successfully send command"
                               | Rejected _ => line "Error while executing command"
                               end)]) d).
Proof.
  intros Hcon Hlive cmdDef.
  unfold sendCommnd, async, isConnected, miio_call, deref.
  js_unfold. rewrite Hcon, Hlive. simpl. rewrite Hcon.
  rewrite calls_of_app. simpl. rewrite app_nil_r.
  unfold write_call. fold cmdDef.
  destruct (call h (calls_of (trace d)) (COMMAND_SET, [cmdDef])) as [result|e];
    unfold promise_then, promise_catch; js_unfold; unfold set_trace; simpl;
    rewrite <- !app_assoc; reflexivity.
Qed.

(** X14. [sendCommnd] is fire and forget.  On a connected device it sends
    one request, the same [set_properties] request a write of the value
    would send, and whatever the transport answers the promise resolves with
    undefined, no cached value changes and no notification is emitted.  With
    a missing property, or on a device that is not connected, it resolves
    with undefined without a call. *)
Theorem sendCommnd_fire_and_forget `{Texts} (d : Device) (r : Ref)
    (p : MiotProperty.t) (v : Value) :
  store d !! r = Some p ->
  let d' := snd (sendCommnd (Some r) v d) in
  fst (sendCommnd (Some r) v d) = Normal (Fulfilled RUndefined)
  /\ calls_of (trace d')
     = calls_of (trace d) ++ (if isConnected d then [write_call p d v] else [])
  /\ store d' = store d
  /\ emitted (trace d') = emitted (trace d)
  /\ fst (sendCommnd None v d) = Normal (Fulfilled RUndefined)
  /\ calls_of (trace (snd (sendCommnd None v d))) = calls_of (trace d).
Proof.
  intros Hlive d'. subst d'. unfold isConnected.
  assert (Hnone : sendCommnd None v d
                  = (Normal (Fulfilled RUndefined),
                     set_trace (trace d ++ [ELog debug (ErrorObject (Error
                        (failure "Missing property! Cannot execute the command!")))]) d))
    by reflexivity.
  rewrite Hnone. simpl.
  destruct (miioDevice d) as [h|] eqn:Hcon.
  - rewrite (sendCommnd_connected d h r p v Hcon Hlive). simpl.
    rewrite !calls_of_app, !emitted_app. simpl. rewrite !app_nil_r. repeat split.
  - assert (Hrun : sendCommnd (Some r) v d
                   = (Normal (Fulfilled RUndefined),
                      set_trace (trace d ++ [ELog debug (ErrorObject (Error
                         (failure "Cannot execute command! Device not connected!")))]) d)).
    { unfold sendCommnd, async, isConnected, deref, createErrorPromise, promise_catch.
      js_unfold. rewrite Hcon, Hlive. reflexivity. }
    rewrite Hrun. simpl.
    rewrite !calls_of_app, !emitted_app. simpl. rewrite !app_nil_r. repeat split.
Qed.

Lemma requestProperty_connected `{Texts} (d : Device) (h : MiioDevice) (r : Ref)
    (p : MiotProperty.t) :
  miioDevice d = Some h ->
  store d !! r = Some p ->
  MiotProperty.isReadable p = true ->
  obj_get (properties d) (MiotProperty.getName p) = Some r ->
  let propDef := MiotProperty.getReadProtocolObjForDid p (deviceId d) in
  let propName := MiotProperty.getName p in
  let asked := trace d ++ [ELog deepDebug (line "Request property! RAW");
                           ECall COMMAND_GET [propDef]] in
  requestProperty (Some r) d
  = match call h (calls_of (trace d)) (COMMAND_GET, [propDef]) with
    | Fulfilled (s :: _) =>
        if strict_eq (code s) (VNum 0) then
          (Normal (Fulfilled (RObject [(propName, slot_value s)])),
           set_trace (asked ++ [ELog debug (line "Successfully updated property value");
                                EEmit DEVICE_PROPERTY_UPDATED r])
             (set_store (<[r := MiotProperty.setValue p (slot_value s)]> (store d)) d))
        else
          (Normal (Fulfilled (RObject [])),
           set_trace (asked ++ [ELog debug (line "Successfully updated property value");
                                ELog debug (ErrorParsingResponse propName s);
                                EEmit DEVICE_PROPERTY_UPDATED r]) d)
    | Fulfilled [] =>
        (Normal (Fulfilled RUndefined),
         set_trace (asked ++ [ELog debug (line "Successfully updated property value");
                              ELog debug (line "Error while requesting property")]) d)
    | Rejected e =>
        (Normal (Fulfilled RUndefined),
         set_trace (asked ++ [ELog debug (line "Error while requesting property")]) d)
    end.
Proof.
  intros Hcon Hlive Hread Hreg propDef propName asked.
  unfold requestProperty, async, isConnected, miio_call, deref.
  js_unfold. rewrite Hcon, Hlive. simpl. rewrite Hread, Hcon. simpl.
  rewrite calls_of_app. simpl. rewrite app_nil_r. fold propDef.
  destruct (call h (calls_of (trace d)) (COMMAND_GET, [propDef])) as [[|s rest]|e].
  - unfold promise_then, promise_catch, requestProperty_then. js_unfold.
    unfold asked, set_trace. simpl. rewrite <- !app_assoc. reflexivity.
  - unfold promise_then, promise_catch, requestProperty_then,
      updatePropertyValueFromDevice, getProperty, setValue, deref.
    js_unfold. fold propName.
    destruct (strict_eq (code s) (VNum 0)) eqn:Hcode; simpl.
    + unfold propName, MiotProperty.getName in *. rewrite Hreg. simpl. rewrite Hlive. simpl.
      unfold asked, set_trace, set_store. simpl. rewrite <- !app_assoc. reflexivity.
    + unfold asked, set_trace. simpl. rewrite <- !app_assoc. reflexivity.
  - unfold promise_then, promise_catch. js_unfold.
    unfold asked, set_trace. simpl. rewrite <- !app_assoc. reflexivity.
Qed.

(** X15. [requestProperty] on a connected device, for a readable property
    that is registered under its own name.  One read request is sent.  When
    the answer has a first slot, the promise resolves with the object of the
    value read, the cache is overwritten exactly when the code of the slot is
    0, and one notification is emitted in either case, also when nothing was
    read.  When the transport call fails, or the answer has no slot, the
    promise resolves with undefined, the cache is as before and no
    notification is emitted. *)
Theorem requestProperty_outcomes `{Texts} (d : Device) (h : MiioDevice) (r : Ref)
    (p : MiotProperty.t) :
  miioDevice d = Some h ->
  store d !! r = Some p ->
  MiotProperty.isReadable p = true ->
  obj_get (properties d) (MiotProperty.getName p) = Some r ->
  let request := (COMMAND_GET, [MiotProperty.getReadProtocolObjForDid p (deviceId d)]) in
  let d' := snd (requestProperty (Some r) d) in
  calls_of (trace d') = calls_of (trace d) ++ [request]
  /\ match call h (calls_of (trace d)) request with
     | Fulfilled (s :: _) =>
         fst (requestProperty (Some r) d)
         = Normal (Fulfilled (RObject (if strict_eq (code s) (VNum 0)
                                       then [(MiotProperty.getName p, slot_value s)]
                                       else [])))
         /\ store d' = (if strict_eq (code s) (VNum 0)
                        then <[r := MiotProperty.setValue p (slot_value s)]> (store d)
                        else store d)
         /\ emitted (trace d') = emitted (trace d) ++ [(DEVICE_PROPERTY_UPDATED, r)]
     | _ =>
         fst (requestProperty (Some r) d) = Normal (Fulfilled RUndefined)
         /\ store d' = store d
         /\ emitted (trace d') = emitted (trace d)
     end.
Proof.
  intros Hcon Hlive Hread Hreg request d'. subst d' request.
  rewrite (requestProperty_connected d h r p Hcon Hlive Hread Hreg).
  destruct (call h (calls_of (trace d))
              (COMMAND_GET, [MiotProperty.getReadProtocolObjForDid p (deviceId d)]))
    as [[|s rest]|e].
  - simpl. rewrite !calls_of_app, !emitted_app. simpl. rewrite !app_nil_r. repeat split.
  - destruct (strict_eq (code s) (VNum 0)); simpl;
      rewrite !calls_of_app, !emitted_app; simpl; rewrite !app_nil_r; repeat split.
  - simpl. rewrite !calls_of_app, !emitted_app. simpl. rewrite !app_nil_r. repeat split.
Qed.

(** X16. [requestProperty] sends nothing for a property that is only
    writable, or for a missing one: it logs the error and resolves with
    undefined, and nothing else changes. *)
Theorem requestProperty_guards `{Texts} (d : Device) (h : MiioDevice) (r : Ref)
    (p : MiotProperty.t) :
  miioDevice d = Some h ->
  store d !! r = Some p ->
  MiotProperty.isReadable p = false ->
  requestProperty (Some r) d
  = (Normal (Fulfilled RUndefined),
     set_trace (trace d ++ [ELog debug (ErrorObject (Error
        (failure "Cannot update property! Property is write only!")))]) d)
  /\ requestProperty None d
     = (Normal (Fulfilled RUndefined),
        set_trace (trace d ++ [ELog debug (ErrorObject (Error
           (failure "Missing property! Cannot execute read request!")))]) d).
Proof.
  intros Hcon Hlive Hread. split; [|reflexivity].
  unfold requestProperty, async, isConnected, deref, createErrorPromise, promise_catch.
  js_unfold. rewrite Hcon, Hlive. simpl. rewrite Hread. reflexivity.
Qed.

(** ** The snapshot of the cache *)

Lemma readable_keys_filterM (d : Device) (l : list (string * Ref)) :
  (forall k r, (k, r) ∈ l ->
     obj_get (properties d) k = Some r /\ is_Some (store d !! r)) ->
  filterM (fun key =>
             match obj_get (properties d) key with
             | Some r => bind (deref r) (fun p => ret (MiotProperty.isReadable p))
             | None => throw TypeError
             end)
          (obj_keys l) d
  = (Normal (obj_keys (List.filter (readable d) l)), d).
Proof.
  induction l as [|[k r] l IH]; intros Hval; simpl; [reflexivity|].
  destruct (Hval k r) as [Hreg [p Hp]]; [apply elem_of_cons; left; reflexivity|].
  assert (Hr : readable d (k, r) = MiotProperty.isReadable p)
    by (unfold readable; simpl; rewrite Hp; reflexivity).
  unfold bind at 1. rewrite Hreg. unfold bind at 1. rewrite (deref_live d r p Hp).
  unfold ret at 1. unfold bind at 1. rewrite IH.
  - cbn [List.filter]. rewrite Hr.
    destruct (MiotProperty.isReadable p); reflexivity.
  - intros k' r' Hin. apply Hval. apply elem_of_cons. right. exact Hin.
Qed.

Lemma snapshot_mapM (d : Device) (entries : list (string * Ref)) :
  (forall k r, (k, r) ∈ entries ->
     obj_get (properties d) k = Some r /\ is_Some (store d !! r)) ->
  mapM (fun key =>
          match obj_get (properties d) key with
          | Some r => bind (deref r) (fun p => ret (MiotProperty.getNameValObj p))
          | None => throw TypeError
          end)
       (obj_keys entries) d
  = (Normal (omap (fun kr : string * Ref =>
                     MiotProperty.getNameValObj <$> store d !! snd kr) entries), d).
Proof.
  induction entries as [|[k r] rest IH]; intros Hval; simpl; [reflexivity|].
  destruct (Hval k r) as [Hget [p Hp]]; [apply elem_of_cons; left; reflexivity|].
  unfold bind at 1. rewrite Hget. unfold bind at 1. rewrite (deref_live d r p Hp).
  unfold ret at 1. unfold bind at 1. rewrite IH.
  - rewrite Hp. reflexivity.
  - intros k' r' Hin. apply Hval. apply elem_of_cons. right. exact Hin.
Qed.

Lemma snapshot_lookup (d : Device) (entries : list (string * Ref)) :
  (forall k r, (k, r) ∈ entries -> is_Some (store d !! r)) ->
  forall i k r p,
    entries !! i = Some (k, r) -> store d !! r = Some p ->
    omap (fun kr : string * Ref => MiotProperty.getNameValObj <$> store d !! snd kr) entries
      !! i
    = Some (MiotProperty.getNameValObj p).
Proof.
  induction entries as [|[k0 r0] rest IH]; intros Hlive i k r p Hi Hp.
  - rewrite lookup_nil in Hi. discriminate Hi.
  - destruct (Hlive k0 r0) as [p0 Hp0]; [apply elem_of_cons; left; reflexivity|].
    simpl. rewrite Hp0. simpl.
    destruct i as [|i]; simpl in Hi.
    + injection Hi as <- <-. rewrite Hp in Hp0. injection Hp0 as <-. reflexivity.
    + simpl. apply (IH (fun k' r' Hin => Hlive k' r' (proj2 (elem_of_cons _ _ _) (or_intror Hin)))
                      i k r p Hi Hp).
Qed.

(** X17. On a well-formed device [getAllPropNameValues] returns the snapshot
    of the cache and changes nothing, the log included: one entry for each
    readable property and none for the others, in the order of the registry,
    each with the name of the property object and the value
    [getPropertyValue] returns for its key. *)
Theorem getAllPropNameValues_snapshot (d : Device) :
  well_formed d ->
  getAllPropNameValues d = (Normal (snapshot d), d)
  /\ length (snapshot d) = length (readable_entries d)
  /\ (forall i k r p,
        readable_entries d !! i = Some (k, r) -> store d !! r = Some p ->
        snapshot d !! i = Some (MiotProperty.mkNameVal (MiotProperty.name p)
                                                        (MiotProperty.value p))
        /\ getPropertyValue k d = (Normal (MiotProperty.value p), d)).
Proof.
  intros Hwf. pose proof Hwf as (Hndk & Hndr & Hlive).
  destruct (well_formed_readable_entries d Hwf) as (_ & _ & Hval).
  assert (Hall : forall k r, (k, r) ∈ properties d ->
                   obj_get (properties d) k = Some r /\ is_Some (store d !! r)).
  { intros k r Hin. split; [apply obj_get_elem; assumption | apply (Hlive k r Hin)]. }
  split; [|split].
  - unfold getAllPropNameValues. unfold bind at 1, this at 1.
    unfold bind at 1. rewrite (readable_keys_filterM d (properties d) Hall).
    fold (readable_entries d).
    rewrite (snapshot_mapM d (readable_entries d) Hval). reflexivity.
  - unfold snapshot.
    assert (Hlen : forall l : list (string * Ref),
               (forall k r, (k, r) ∈ l -> is_Some (store d !! r)) ->
               length (omap (fun kr : string * Ref =>
                               MiotProperty.getNameValObj <$> store d !! snd kr) l)
               = length l).
    { induction l as [|[k r] l IH]; intros Hl; simpl; [reflexivity|].
      destruct (Hl k r) as [p Hp]; [apply elem_of_cons; left; reflexivity|].
      rewrite Hp. simpl. f_equal. apply IH.
      intros k' r' Hin. apply (Hl k' r'). apply elem_of_cons. right. exact Hin. }
    apply Hlen. intros k r Hin. apply (Hval k r Hin).
  - intros i k r p Hi Hp. split.
    + apply (snapshot_lookup d (readable_entries d)
               (fun k' r' Hin => proj2 (Hval k' r' Hin)) i k r p Hi Hp).
    + assert (Hin : (k, r) ∈ readable_entries d) by (eapply list_elem_of_lookup_2; exact Hi).
      unfold getPropertyValue, bind.
      rewrite (getProperty_present d k r (proj1 (Hval k r Hin))).
      rewrite (deref_live d r p Hp). reflexivity.
Qed.

(** ** The device id and the construction *)

(** X18. While a handle is bound, [getDeviceId] is the id of the handle
    without its prefix [miio:], whatever device id is configured.  On a
    device that was constructed without a device id, the first attach stores
    that id, so that it is still the answer of [getDeviceId] after the
    detach; a configured device id is kept by the attach and is the answer
    again after the detach. *)
Theorem getDeviceId_follows_the_handle `{DeviceClass} (d : Device) (h : MiioDevice)
    (s : string) :
  miioDevice d = None ->
  id h = ("miio:" ++ s)%string ->
  let attached := snd (updateMiioDevice h d) in
  let detached := snd (disconnectAndDestroyMiioDevice attached) in
  getDeviceId d = deviceId d
  /\ getDeviceId attached = VStr s
  /\ getDeviceId detached = (if truthy (deviceId d) then deviceId d else VStr s).
Proof.
  intros Hnone Hid attached detached.
  split; [unfold getDeviceId; rewrite Hnone; reflexivity|].
  assert (Hatt : miioDevice attached = Some h
                 /\ deviceId attached = (if truthy (deviceId d) then deviceId d else VStr s)).
  { subst attached. rewrite (updateMiioDevice_unbound d h Hnone).
    destruct (setupDevice_outcome (set_miioDevice (Some h) d) h eq_refl)
      as (_ & Hdid & _ & _ & Hmiio & _).
    split; [exact Hmiio|]. rewrite Hdid. unfold resolved_id, getDeviceId. simpl.
    rewrite Hid, strip_miio_prefixed. reflexivity. }
  destruct Hatt as [Hmiio Hdid].
  split.
  - unfold getDeviceId. rewrite Hmiio, Hid, strip_miio_prefixed. reflexivity.
  - subst detached. unfold disconnectAndDestroyMiioDevice. js_unfold.
    rewrite Hmiio. simpl. unfold getDeviceId. simpl. exact Hdid.
Qed.

(** X19. The construction never throws.  Without a transport it leaves a
    device that is not connected, with an empty registry, no capability and
    no property object, that has made no transport call; a missing model is
    logged as an error and the device is constructed all the same.  With a
    transport, the construction is the construction without one followed by
    [updateMiioDevice]. *)
Theorem constructor_outcome `{DeviceClass} (miio : option MiioDevice)
    (model deviceId name : Value) :
  fst (constructor miio model deviceId name) = Normal tt
  /\ constructor None model deviceId name
     = (Normal tt,
        mkDevice deviceId model name None (Some []) [] [] []
          ((if truthy model then [] else [ELog error MissingModel])
           ++ [ELog info InitializingProperties; ELog debug DevicePropertiesDump;
               ELog info InitializingCapabilities; ELog debug DeviceCapabilitiesDump]))
  /\ (forall h,
        constructor (Some h) model deviceId name
        = updateMiioDevice h (snd (constructor None model deviceId name))).
Proof.
  assert (Hnone : constructor None model deviceId name
     = (Normal tt,
        mkDevice deviceId model name None (Some []) [] [] []
          ((if truthy model then [] else [ELog error MissingModel])
           ++ [ELog info InitializingProperties; ELog debug DevicePropertiesDump;
               ELog info InitializingCapabilities; ELog debug DeviceCapabilitiesDump]))).
  { unfold constructor, initDevice. js_unfold. destruct (truthy model); reflexivity. }
  split; [|split; [exact Hnone | intros h; apply constructor_with_handle]].
  destruct miio as [h|]; [|rewrite Hnone; reflexivity].
  rewrite constructor_with_handle.
  destruct (miioDevice (snd (constructor None model deviceId name))) as [old|] eqn:Hb.
  - rewrite Hnone in Hb. discriminate Hb.
  - rewrite (updateMiioDevice_unbound _ h Hb).
    apply (setupDevice_outcome
             (set_miioDevice (Some h) (snd (constructor None model deviceId name))) h eq_refl).
Qed.

(** ** The mode switches of the accessory *)

Import BaseAccessory.

Lemma updateModeSwitches_loop_prepared `{ModeDevice} (d : Device) (currentMode : Value)
    (l : list MiotProperty.ValueListEntry) :
  forall i, drop i (modes d) = l ->
    updateModeSwitches_loop d currentMode i
      (map (fun mode =>
              mkSwitch ("Mode - " ++ MiotProperty.description mode)
                       "modeControlService" (MiotProperty.entry_value mode)) l)
    = (map (fun mode =>
              (mkSwitch ("Mode - " ++ MiotProperty.description mode)
                        "modeControlService" (MiotProperty.entry_value mode),
               and (VBool (strict_eq currentMode (VNum (MiotProperty.entry_value mode))))
                   (isPowerOn d))) l,
       Normal tt).
Proof.
  induction l as [|mode l IH]; intros i Hdrop; simpl; [reflexivity|].
  assert (Hi : modes d !! i = Some mode).
  { rewrite <- (Nat.add_0_r i), <- lookup_drop, Hdrop. reflexivity. }
  rewrite Hi.
  assert (Hnext : drop (S i) (modes d) = l).
  { rewrite (drop_S _ _ _ Hi) in Hdrop. injection Hdrop as Hdrop. exact Hdrop. }
  rewrite (IH (S i) Hnext). reflexivity.
Qed.

(** X20. The mode switch of the accessory answers with a boolean, and for
    at most one mode with true: it is on only for the mode the device is in,
    and only when the accessory has a device that is connected and switched
    on. *)
Theorem isModeSwitchOn_exclusive `{ModeDevice} (miotDevice : option Device)
    (mode other : Value) :
  (exists b, isModeSwitchOn miotDevice mode = VBool b)
  /\ (isModeSwitchOn miotDevice mode = VBool true ->
      isModeSwitchOn miotDevice other = VBool true -> mode = other)
  /\ (isModeSwitchOn miotDevice mode = VBool true ->
      exists d, miotDevice = Some d /\ isConnected d = true
                /\ truthy (isPowerOn d) = true /\ getMode d = mode).
Proof.
  unfold isModeSwitchOn, isMiotDeviceConnected, and.
  destruct miotDevice as [d|]; simpl.
  - destruct (isConnected d) eqn:Hcon; simpl.
    + destruct (truthy (isPowerOn d)) eqn:Hpower.
      * split; [eexists; reflexivity|]. split.
        -- intros [= H1] [= H2].
           apply strict_eq_true in H1. apply strict_eq_true in H2. congruence.
        -- intros [= H1]. apply strict_eq_true in H1. exists d. split; [reflexivity|]. split; [exact Hcon|].
           split; [exact Hpower | exact H1].
      * split; [eexists; reflexivity|]. split; intros [= ].
    + split; [eexists; reflexivity|]. split; intros [= ].
  - split; [eexists; reflexivity|]. split; intros [= ].
Qed.

(** X21. After [prepareModeControlServices] has created the switches from
    the modes of the device, [updateModeSwitches] updates each of them once,
    in order, and does not throw.  A switch is given a truthy value exactly
    when the device is switched on and in the mode of the switch; so with
    modes of distinct values at most one switch is turned on, and none when
    the device is off.  The connection of the device is not looked at. *)
Theorem updateModeSwitches_of_prepared `{ModeDevice} (d : Device) :
  let services := prepareModeControlServices d in
  let updates := fst (updateModeSwitches (Some d) services) in
  snd (updateModeSwitches (Some d) services) = Normal tt
  /\ map fst updates = default [] services
  /\ (forall i sw v,
        updates !! i = Some (sw, v) ->
        truthy v = strict_eq (getMode d) (VNum (switch_value sw)) && truthy (isPowerOn d))
  /\ (NoDup (map MiotProperty.entry_value (modes d)) ->
      forall i j swi swj vi vj,
        updates !! i = Some (swi, vi) -> updates !! j = Some (swj, vj) ->
        truthy vi = true -> truthy vj = true -> i = j).
Proof.
  intros services updates. subst updates services.
  unfold prepareModeControlServices, updateModeSwitches.
  destruct (truthy (supportsModes d)).
  2:{ simpl. repeat split.
      - intros i sw v Hi. rewrite lookup_nil in Hi. discriminate Hi.
      - intros _ i j swi swj vi vj Hi. rewrite lookup_nil in Hi. discriminate Hi. }
  rewrite (updateModeSwitches_loop_prepared d (getMode d) (modes d) 0 eq_refl). simpl.
  set (mk := fun mode : MiotProperty.ValueListEntry =>
               mkSwitch ("Mode - " ++ MiotProperty.description mode)
                        "modeControlService" (MiotProperty.entry_value mode)).
  set (upd := fun mode : MiotProperty.ValueListEntry =>
                (mk mode,
                 and (VBool (strict_eq (getMode d) (VNum (MiotProperty.entry_value mode))))
                     (isPowerOn d))).
  assert (Hlookup : forall i sw v,
             map upd (modes d) !! i = Some (sw, v) ->
             exists mode, modes d !! i = Some mode
                          /\ switch_value sw = MiotProperty.entry_value mode
                          /\ truthy v
                             = strict_eq (getMode d) (VNum (MiotProperty.entry_value mode))
                               && truthy (isPowerOn d)).
  { intros i sw v Hi. rewrite lookup_map in Hi.
    destruct (modes d !! i) as [mode|]; [|discriminate Hi].
    simpl in Hi. injection Hi as <- <-. exists mode. repeat split.
    unfold and. simpl.
    destruct (strict_eq (getMode d) (VNum (MiotProperty.entry_value mode))); reflexivity. }
  split; [reflexivity|].
  split; [rewrite map_map; reflexivity|].
  split.
  - intros i sw v Hi. destruct (Hlookup i sw v Hi) as (mode & _ & -> & Hv). exact Hv.
  - intros Hnd i j swi swj vi vj Hi Hj Hvi Hvj.
    destruct (Hlookup i swi vi Hi) as (mi & Hmi & _ & Ei).
    destruct (Hlookup j swj vj Hj) as (mj & Hmj & _ & Ej).
    rewrite Hvi in Ei. rewrite Hvj in Ej.
    symmetry in Ei, Ej. apply andb_prop in Ei as [Ei _]. apply andb_prop in Ej as [Ej _].
    apply strict_eq_true in Ei. apply strict_eq_true in Ej.
    assert (Hsame : MiotProperty.entry_value mi = MiotProperty.entry_value mj) by congruence.
    apply (NoDup_lookup (map MiotProperty.entry_value (modes d)) i j
             (MiotProperty.entry_value mi) Hnd).
    + rewrite lookup_map, Hmi. reflexivity.
    + rewrite lookup_map, Hmj, Hsame. reflexivity.
Qed.

(** ** The theorems on the fan *)

(** The fan on the failing transport: the batched read is rejected with the
    time-out and the caches are as before. *)
Lemma requestAllProperties_transport_failure_witness :
  store (snd (requestAllProperties (Scenario.fan_on (Scenario.failing "miio:77"))))
  = store (Scenario.fan_on (Scenario.failing "miio:77")).
Proof.
  apply (requestAllProperties_transport_failure
           (Scenario.fan_on (Scenario.failing "miio:77")) (Scenario.failing "miio:77")
           (TransportError "timeout") (fan_on_well_formed _) eq_refl eq_refl).
Defined.

(** The fan answered with one slot for its three properties. *)
Lemma requestAllProperties_short_response_witness :
  exists obj d',
    requestAllProperties (Scenario.fan_on (Scenario.late "miio:77" Scenario.short_answer))
    = (Normal (Fulfilled (RObject obj)), d')
    /\ store d' !! 1 = store (Scenario.fan_on (Scenario.late "miio:77" Scenario.short_answer)) !! 1
    /\ obj_get obj "fan_level" = None.
Proof.
  destruct (requestAllProperties_short_response
              (Scenario.fan_on (Scenario.late "miio:77" Scenario.short_answer))
              (Scenario.late "miio:77" Scenario.short_answer) Scenario.short_answer
              (fan_on_well_formed _) eq_refl eq_refl)
    as (obj & d' & Hrun & _ & Hrest).
  { simpl. lia. }
  exists obj, d'. split; [exact Hrun|].
  apply (Hrest 1 "fan_level" 1 eq_refl). simpl. lia.
Defined.

(** The fan answered with four slots for its three properties. *)
Lemma requestAllProperties_long_response_witness :
  exists d',
    requestAllProperties (Scenario.fan_on (Scenario.late "miio:77" Scenario.long_answer))
    = (Normal (Rejected TypeError), d').
Proof.
  destruct (requestAllProperties_long_response
              (Scenario.fan_on (Scenario.late "miio:77" Scenario.long_answer))
              (Scenario.late "miio:77" Scenario.long_answer)
              [mkSlot (VNum 0) (VBool true); mkSlot (VNum 0) (VNum 2);
               mkSlot (VNum 0) (VBool true)]
              [] (mkSlot (VNum 0) (VNum 7))
              (fan_on_well_formed _) eq_refl eq_refl eq_refl eq_refl eq_refl)
    as (d' & Hrun & _).
  exists d'. exact Hrun.
Defined.

(** The registry of the fan is well formed after a write that is clamped. *)
Lemma registry_stays_well_formed_witness :
  well_formed (snd (setPropertyValue (H := no_numeric_strings) "fan_level" (VNum 5)
                      (Scenario.fan_on (Scenario.obliging "miio:77")))).
Proof.
  apply (@registry_stays_well_formed plain_device no_numeric_strings terse
           (Scenario.fan_on (Scenario.obliging "miio:77")) None (Scenario.obliging "miio:77")
           VUndefined VUndefined VUndefined None None None
           MiotProperty.FormatBool MiotProperty.ReadWrite None None None
           "speed" "fan_level" (Some 1) (VNum 5)).
  apply fan_on_well_formed.
Defined.


(** A property of the fan with an empty name. *)
Lemma addProperty_rejects_empty_name_and_zero_ids_witness :
  properties
    (snd (addProperty (Some "") (Some 2%Z) (Some 3%Z) MiotProperty.FormatBool
                      MiotProperty.ReadWrite None None None Scenario.unbound_fan))
  = properties Scenario.unbound_fan.
Proof.
  apply (addProperty_rejects_empty_name_and_zero_ids Scenario.unbound_fan (Some "")
           (Some 2%Z) (Some 3%Z) MiotProperty.FormatBool MiotProperty.ReadWrite None None None
           (or_introl eq_refl)).
Defined.


(** The level 2 is within the range of [fan_level], and is sent as it is. *)
Lemma setPropertyValue_unadjusted_witness :
  let d := Scenario.fan_on (Scenario.obliging "miio:77") in
  length (calls_of (trace (snd (setPropertyValue (H := no_numeric_strings) "fan_level"
                                  (VNum 2) d))))
  = S (length (calls_of (trace d))).
Proof.
  pose proof (setPropertyValue_unadjusted (H := no_numeric_strings)
                (Scenario.fan_on (Scenario.obliging "miio:77")) "fan_level" 1
                (MiotProperty.mkProperty "fan_level" 2 2 MiotProperty.FormatInt
                   MiotProperty.ReadWrite None (Some [1%Z; 3%Z]) None (VNum 1))
                (VNum 2) eq_refl eq_refl) as Hw.
  cbv zeta in Hw. destruct Hw as (Hsame & _ & _).
  destruct (Hsame eq_refl) as [Hcalls _].
  cbv zeta. rewrite Hcalls. reflexivity.
Defined.

(** A write to [power] of the fan that was never attached. *)
Lemma setProperty_always_resolves_witness :
  fst (setProperty (Some 0) (VBool true) Scenario.unbound_fan)
  = Normal (Fulfilled RUndefined).
Proof.
  apply (setProperty_always_resolves Scenario.unbound_fan 0
           (MiotProperty.mkProperty "power" 2 1 MiotProperty.FormatBool
              MiotProperty.ReadWrite None None None (VBool false))
           (VBool true) eq_refl).
Defined.

(** A command for [power] on the failing transport. *)
Lemma sendCommnd_fire_and_forget_witness :
  fst (sendCommnd (H := terse) (Some 0) (VBool true)
         (Scenario.fan_on (Scenario.failing "miio:77")))
  = Normal (Fulfilled RUndefined).
Proof.
  apply (sendCommnd_fire_and_forget (H := terse)
           (Scenario.fan_on (Scenario.failing "miio:77")) 0
           (MiotProperty.mkProperty "power" 2 1 MiotProperty.FormatBool
              MiotProperty.ReadWrite None None None (VBool false))
           (VBool true) eq_refl).
Defined.

(** A read of [power] on the obliging transport. *)
Lemma requestProperty_outcomes_witness :
  let d := Scenario.fan_on (Scenario.obliging "miio:77") in
  fst (requestProperty (H := terse) (Some 0) d)
  = Normal (Fulfilled (RObject [("power", VBool false)]))
  /\ emitted (trace (snd (requestProperty (H := terse) (Some 0) d)))
     = emitted (trace d) ++ [(DEVICE_PROPERTY_UPDATED, 0)].
Proof.
  pose proof (requestProperty_outcomes (H := terse)
                (Scenario.fan_on (Scenario.obliging "miio:77")) (Scenario.obliging "miio:77") 0
                (MiotProperty.mkProperty "power" 2 1 MiotProperty.FormatBool
                   MiotProperty.ReadWrite None None None (VBool false))
                eq_refl eq_refl eq_refl eq_refl) as Hw.
  cbv zeta in Hw. destruct Hw as (_ & Hres & _ & Hemit).
  split; [exact Hres | exact Hemit].
Defined.

(** A read of [toggle], which can only be written. *)
Lemma requestProperty_guards_witness :
  fst (requestProperty (H := terse) (Some 3)
         (Scenario.fan_with_toggle (Scenario.obliging "miio:77")))
  = Normal (Fulfilled RUndefined).
Proof.
  pose proof (requestProperty_guards (H := terse)
                (Scenario.fan_with_toggle (Scenario.obliging "miio:77"))
                (Scenario.obliging "miio:77") 3
                (MiotProperty.mkProperty "toggle" 2 3 MiotProperty.FormatBool
                   MiotProperty.WriteOnly None None None (VBool false))
                eq_refl eq_refl eq_refl) as [Hw _].
  exact (f_equal fst Hw).
Defined.

(** The snapshot of the fan. *)
Lemma getAllPropNameValues_snapshot_witness :
  getAllPropNameValues Scenario.unbound_fan
  = (Normal [MiotProperty.mkNameVal "power" (VBool false);
             MiotProperty.mkNameVal "fan_level" (VNum 0);
             MiotProperty.mkNameVal "buzzer" (VBool false)],
     Scenario.unbound_fan).
Proof.
  apply (getAllPropNameValues_snapshot Scenario.unbound_fan unbound_fan_well_formed).
Defined.

(** The fan was configured with the id 1234 and is bound to the handle
    [miio:77]. *)
Lemma getDeviceId_follows_the_handle_witness :
  let attached :=
    snd (updateMiioDevice (H := plain_device) (Scenario.obliging "miio:77")
           Scenario.unbound_fan) in
  getDeviceId attached = VStr "77"
  /\ getDeviceId (snd (disconnectAndDestroyMiioDevice attached)) = VStr "1234".
Proof.
  pose proof (getDeviceId_follows_the_handle (H := plain_device) Scenario.unbound_fan
                (Scenario.obliging "miio:77") "77" eq_refl eq_refl) as Hw.
  cbv zeta in Hw. destruct Hw as (_ & Hon & Hoff).
  split; [exact Hon | exact Hoff].
Defined.

(** The running fan is in the mode 1: the switch of that mode is on, the
    switch of the mode 0 is not. *)
Lemma isModeSwitchOn_exclusive_witness :
  BaseAccessory.isModeSwitchOn (H := Scenario.fan_modes) (Some Scenario.running_fan) (VNum 1)
  = VBool true
  /\ BaseAccessory.isModeSwitchOn (H := Scenario.fan_modes) (Some Scenario.running_fan) (VNum 0)
     <> VBool true.
Proof.
  split; [reflexivity|]. intros Hoff.
  pose proof (proj1 (proj2 (isModeSwitchOn_exclusive (H := Scenario.fan_modes)
                              (Some Scenario.running_fan) (VNum 1) (VNum 0)))
                eq_refl Hoff) as Hsame.
  discriminate Hsame.
Defined.

(** The two switches of the running fan. *)
Lemma updateModeSwitches_of_prepared_witness :
  let services := BaseAccessory.prepareModeControlServices (H := Scenario.fan_modes)
                    Scenario.running_fan in
  snd (BaseAccessory.updateModeSwitches (H := Scenario.fan_modes)
         (Some Scenario.running_fan) services)
  = Normal tt
  /\ map fst (fst (BaseAccessory.updateModeSwitches (H := Scenario.fan_modes)
                     (Some Scenario.running_fan) services))
     = default [] services.
Proof.
  pose proof (updateModeSwitches_of_prepared (H := Scenario.fan_modes) Scenario.running_fan)
    as Hw.
  cbv zeta in Hw. destruct Hw as (Hret & Hall & _).
  split; [exact Hret | exact Hall].
Defined.
